(** * Booking-metrics aggregation of the holiday-rental dashboard

    A shallow embedding of the [processedData] computation of
    [src/bookings.js] (the date-range filter, the KPIs and the two chart
    series), with the properties its specification states about it.

    Conventions of the embedding:
    - a JavaScript number is [NaN] or a finite rational ([Fin q]); arithmetic
      is exact (no binary64 rounding, no overflow).  The only way the source
      could produce an infinity from finite data is a division by zero, and
      division is modelled as partial: a zero divisor yields
      [DivisionByZero] instead of a value, so that "no division by zero
      occurs" is a property of the embedding;
    - a [Date] is the time value (milliseconds since the epoch) held by the
      object that [new Date(x)] builds, or [None] for an Invalid Date;
    - a plain object used as a dictionary ([monthlyData], [channelData]) is
      the list of its own properties in creation order, looked up through
      the names it inherits from [Object.prototype] and enumerated in the
      order of [Object.values]. *)

From Stdlib Require Import List ZArith QArith Qminmax String Ascii Bool.
From Stdlib Require Import Lia Lqa Sorted Permutation DecimalString.
Import ListNotations.

Local Open Scope Z_scope.

(** ** Numbers *)

Module JS.

Inductive number : Type :=
| NaN
| Fin (q : Q).

Definition of_Z (z : Z) : number := Fin (inject_Z z).
Definition of_nat (n : nat) : number := of_Z (Z.of_nat n).

Definition add (x y : number) : number :=
  match x, y with
  | Fin a, Fin b => Fin (a + b)
  | _, _ => NaN
  end.

Definition sub (x y : number) : number :=
  match x, y with
  | Fin a, Fin b => Fin (a - b)
  | _, _ => NaN
  end.

Definition mul (x y : number) : number :=
  match x, y with
  | Fin a, Fin b => Fin (a * b)
  | _, _ => NaN
  end.

(** Relational operators: every comparison with [NaN] is false. *)
Definition gt (x y : number) : bool :=
  match x, y with
  | Fin a, Fin b => negb (Qle_bool a b)
  | _, _ => false
  end.

Definition ge (x y : number) : bool :=
  match x, y with
  | Fin a, Fin b => Qle_bool b a
  | _, _ => false
  end.

Definition le (x y : number) : bool :=
  match x, y with
  | Fin a, Fin b => Qle_bool a b
  | _, _ => false
  end.

Definition lt (x y : number) : bool :=
  match x, y with
  | Fin a, Fin b => negb (Qle_bool b a)
  | _, _ => false
  end.

(** ToBoolean on a number: [NaN] and zero are falsy. *)
Definition truthy (x : number) : bool :=
  match x with
  | NaN => false
  | Fin q => negb (Qeq_bool q 0)
  end.

(** [x || y] on numbers. *)
Definition or (x y : number) : number := if truthy x then x else y.

(** [x || y] where [x] is a possibly missing numeric field. *)
Definition or_undefined (x : option number) (y : number) : number :=
  match x with
  | Some v => or v y
  | None => y
  end.

(** [s || d] on a possibly missing string field: the empty string is falsy. *)
Definition or_string (s : option string) (d : string) : string :=
  match s with
  | Some EmptyString => d
  | Some v => v
  | None => d
  end.

(** Outcome of a computation that divides. *)
Inductive result (A : Type) : Type :=
| Ok (a : A)
| DivisionByZero.

Arguments Ok {A} a.
Arguments DivisionByZero {A}.

Definition bind {A B : Type} (c : result A) (k : A -> result B) : result B :=
  match c with
  | Ok a => k a
  | DivisionByZero => DivisionByZero
  end.

Definition div (x y : number) : result number :=
  match y with
  | NaN => Ok NaN
  | Fin b =>
      if Qeq_bool b 0 then DivisionByZero
      else match x with
           | NaN => Ok NaN
           | Fin a => Ok (Fin (a / b))
           end
  end.

(** [Array.prototype.reduce] with a callback that may divide. *)
Fixpoint reduce {A B : Type} (f : B -> A -> result B) (l : list A) (acc : B)
  : result B :=
  match l with
  | [] => Ok acc
  | x :: l' => bind (f acc x) (fun acc' => reduce f l' acc')
  end.

(** Equality of numbers up to the representation of the rational. *)
Definition num_eq (x y : number) : Prop :=
  match x, y with
  | NaN, NaN => True
  | Fin a, Fin b => a == b
  | _, _ => False
  end.

(** *** Dates *)

Definition Date : Type := option Z.

Definition getTime (d : Date) : number :=
  match d with
  | Some t => of_Z t
  | None => NaN
  end.

Definition msPerDay : Z := 86400000.

Definition Day (t : Z) : Z := t / msPerDay.

(** Month (0-11) of the civil date of a time value, by the era/day-of-era
    decomposition of the proleptic Gregorian calendar. *)
Definition MonthFromTime (t : Z) : Z :=
  let z := Day t + 719468 in
  let doe := z mod 146097 in
  let yoe := (doe - doe / 1460 + doe / 36524 - doe / 146096) / 365 in
  let doy := doe - (365 * yoe + yoe / 4 - yoe / 100) in
  let mp := (5 * doy + 2) / 153 in
  if mp <? 10 then mp + 2 else mp - 10.

(** Time value of midnight UTC of a civil date ([month] is 1-12); used to
    write dates such as 2024-01-15 in examples. *)
Definition UTC (year month day : Z) : Z :=
  let y := if month <=? 2 then year - 1 else year in
  let era := y / 400 in
  let yoe := y - era * 400 in
  let mp := (month + 9) mod 12 in
  let doy := (153 * mp + 2) / 5 + day - 1 in
  let doe := yoe * 365 + yoe / 4 - yoe / 100 + doy in
  (era * 146097 + doe - 719468) * msPerDay.

End JS.

Notation "x <- c ;; k" := (JS.bind c (fun x => k))
  (at level 61, c at next level, right associativity).


(** ** Plain objects used as dictionaries *)

Module Obj.

(** Own properties, in creation order. *)
Definition object (V : Type) : Type := list (string * V).

(** The property names every plain object inherits from [Object.prototype];
    each of them reads as a truthy value (a function, or the prototype
    itself for [__proto__]). *)
Definition Object_prototype_names : list string :=
  [ "constructor"; "hasOwnProperty"; "isPrototypeOf"; "propertyIsEnumerable";
    "toLocaleString"; "toString"; "valueOf"; "__proto__";
    "__defineGetter__"; "__defineSetter__"; "__lookupGetter__";
    "__lookupSetter__" ]%string.

Definition inherited (k : string) : bool :=
  existsb (String.eqb k) Object_prototype_names.

Fixpoint get_own {V : Type} (o : object V) (k : string) : option V :=
  match o with
  | [] => None
  | (k', v) :: o' => if String.eqb k' k then Some v else get_own o' k
  end.

(** [!o[k]] for a dictionary whose own values are objects (always truthy):
    true when [k] is neither an own nor an inherited property. *)
Definition missing {V : Type} (o : object V) (k : string) : bool :=
  match get_own o k with
  | Some _ => false
  | None => negb (inherited k)
  end.

(** [o[k] = v]: overwrites an own property in place, creates it last
    otherwise. *)
Fixpoint set {V : Type} (o : object V) (k : string) (v : V) : object V :=
  match o with
  | [] => [(k, v)]
  | (k', v') :: o' =>
      if String.eqb k' k then (k', v) :: o' else (k', v') :: set o' k v
  end.

(** [o[k].field op= ...]: rewrites the object stored under the own property
    [k] (property keys are unique).  When [k] is only inherited the object
    written to is the inherited one, and [o] keeps its own properties as
    they are. *)
Definition update {V : Type} (o : object V) (k : string) (f : V -> V)
  : object V :=
  map (fun kv => if String.eqb (fst kv) k then (fst kv, f (snd kv)) else kv) o.

(** Array indices: the canonical decimal strings of 0 .. 2^32 - 2. *)
Definition digit (c : ascii) : option N :=
  let n := N_of_ascii c in
  if ((48 <=? n) && (n <=? 57))%N then Some (n - 48)%N else None.

Fixpoint digits (s : string) (acc : N) : option N :=
  match s with
  | EmptyString => Some acc
  | String c s' =>
      match digit c with
      | Some d => digits s' (10 * acc + d)%N
      | None => None
      end
  end.

Definition array_index (s : string) : option N :=
  match s with
  | EmptyString => None
  | String "0"%char EmptyString => Some 0%N
  | String "0"%char _ => None
  | _ =>
      match digits s 0%N with
      | Some n => if (n <? 4294967295)%N then Some n else None
      | None => None
      end
  end.

Definition is_index (s : string) : bool :=
  match array_index s with
  | Some _ => true
  | None => false
  end.

Fixpoint insert_index {V : Type} (n : N) (v : V) (l : list (N * V))
  : list (N * V) :=
  match l with
  | [] => [(n, v)]
  | (m, w) :: l' =>
      if (n <? m)%N then (n, v) :: (m, w) :: l' else (m, w) :: insert_index n v l'
  end.

(** Own properties whose key is an array index, by ascending index. *)
Fixpoint index_properties {V : Type} (o : object V) : list (N * V) :=
  match o with
  | [] => []
  | (k, v) :: o' =>
      match array_index k with
      | Some n => insert_index n v (index_properties o')
      | None => index_properties o'
      end
  end.

(** Own properties with any other key, in creation order. *)
Definition named_properties {V : Type} (o : object V) : object V :=
  filter (fun kv => negb (is_index (fst kv))) o.

(** The order [index_properties] is kept in. *)
Definition index_order {V : Type} (a b : N * V) : Prop := (fst a <= fst b)%N.

(** The array-index properties before they are ordered. *)
Definition indexed {V : Type} (o : object V) : list (N * V) :=
  flat_map (fun kv => match array_index (fst kv) with
                      | Some n => [(n, snd kv)]
                      | None => []
                      end) o.

(** [Object.values(o)]: index keys first, ascending, then the other keys in
    creation order. *)
Definition values {V : Type} (o : object V) : list V :=
  map snd (index_properties o) ++ map snd (named_properties o).

End Obj.

(** ** Arrays *)

Module Arr.

(** A comparator result counts as "greater" only when it is a positive
    number; [NaN] ([None]) is treated as zero. *)
Definition positive (c : option Z) : bool :=
  match c with
  | Some z => 0 <? z
  | None => false
  end.

Fixpoint sort_insert {A : Type} (comparefn : A -> A -> option Z) (x : A)
  (l : list A) : list A :=
  match l with
  | [] => [x]
  | y :: l' =>
      if positive (comparefn x y) then y :: sort_insert comparefn x l'
      else x :: y :: l'
  end.

(** [Array.prototype.sort(comparefn)] as a stable insertion sort.  (With a
    comparator that answers [NaN] the order is left to the engine; this
    model, like every stable comparison sort, leaves an array alone in which
    no element compares greater than its successor.) *)
Definition sort {A : Type} (comparefn : A -> A -> option Z) (l : list A)
  : list A :=
  fold_right (sort_insert comparefn) [] l.

End Arr.

(** ** Booking records *)

(** One element of [allBookings].  [arrival] and [departure] hold the value
    of [new Date(b.arrival)] and [new Date(b.departure)]; [creation_date] is
    [None] when [b.creation_date] is falsy (missing or empty) and otherwise
    holds the value of [new Date(b.creation_date)]; [total_amount] and
    [source] are [None] when the field is missing. *)
Record Booking : Type := mkBooking {
  arrival : JS.Date;
  departure : JS.Date;
  total_amount : option JS.number;
  source : option string;
  status : string;
  creation_date : option JS.Date
}.

Module Month.
Record entry : Type := mk {
  name : option string;        (* [monthNames[month]], [None] for undefined *)
  monthIndex : option Z;       (* [None] for NaN *)
  bookings : Z
}.
End Month.

Module Channel.
Record entry : Type := mk {
  name : string;
  revenue : JS.number
}.
End Channel.

Module ProcessedData.
Record t : Type := mk {
  totalRevenue : JS.number;
  totalBookings : nat;
  avgBookingValue : JS.number;
  avgNightlyRate : JS.number;
  bookingsByMonth : list Month.entry;
  revenueByChannel : list Channel.entry;
  totalNights : JS.number;
  avgLengthOfStay : JS.number;
  avgLeadTime : JS.number;
  cancellationRate : JS.number;
  filteredBookings : list Booking
}.
End ProcessedData.

(** ** The date-range filter (bookings.js, lines 114-119) *)

(** [startDate] and [endDate] are the strings of the two date inputs: [None]
    is the empty (falsy) string, [Some d] a non-empty string with
    [new Date(...)] equal to [d]. *)
Definition in_range (startDate endDate : option JS.Date) (booking : Booking)
  : bool :=
  match startDate, endDate with
  | None, None => true
  | Some s, None => JS.ge (JS.getTime (arrival booking)) (JS.getTime s)
  | None, Some e => JS.le (JS.getTime (arrival booking)) (JS.getTime e)
  | Some s, Some e =>
      JS.ge (JS.getTime (arrival booking)) (JS.getTime s)
      && JS.le (JS.getTime (arrival booking)) (JS.getTime e)
  end.

Definition filteredBookings (allBookings : list Booking)
  (startDate endDate : option JS.Date) : list Booking :=
  filter (in_range startDate endDate) allBookings.

(** ** The KPIs (lines 121-137) *)

Definition confirmedBookings (filtered : list Booking) : list Booking :=
  filter (fun b => String.eqb (status b) "Booked") filtered.

Definition cancelledBookings (filtered : list Booking) : list Booking :=
  filter (fun b => String.eqb (status b) "Cancelled") filtered.

Definition zero : JS.number := JS.Fin 0%Q.

(** [b.total_amount || 0] *)
Definition amount (b : Booking) : JS.number :=
  JS.or_undefined (total_amount b) zero.

Definition totalRevenue (filtered : list Booking) : JS.number :=
  fold_left (fun acc b => JS.add acc (amount b)) (confirmedBookings filtered)
    zero.

Definition totalBookings (filtered : list Booking) : nat :=
  List.length (confirmedBookings filtered).

(** [(new Date(b.departure) - new Date(b.arrival)) / (1000 * 3600 * 24)] *)
Definition nights (b : Booking) : JS.result JS.number :=
  JS.div (JS.sub (JS.getTime (departure b)) (JS.getTime (arrival b)))
    (JS.of_Z (1000 * 3600 * 24)).

(** [nights(b) || 0] *)
Definition nights_or_zero (b : Booking) : JS.result JS.number :=
  n <- nights b ;; JS.Ok (JS.or n zero).

Definition totalNights (filtered : list Booking) : JS.result JS.number :=
  JS.reduce (fun acc b => n <- nights_or_zero b ;; JS.Ok (JS.add acc n))
    (confirmedBookings filtered) zero.

Definition avgBookingValue (totalRevenue : JS.number) (totalBookings : nat)
  : JS.result JS.number :=
  if JS.gt (JS.of_nat totalBookings) zero
  then JS.div totalRevenue (JS.of_nat totalBookings)
  else JS.Ok zero.

Definition avgNightlyRate (totalRevenue totalNights : JS.number)
  : JS.result JS.number :=
  if JS.gt totalNights zero then JS.div totalRevenue totalNights
  else JS.Ok zero.

Definition avgLengthOfStay (totalNights : JS.number) (totalBookings : nat)
  : JS.result JS.number :=
  if JS.gt (JS.of_nat totalBookings) zero
  then JS.div totalNights (JS.of_nat totalBookings)
  else JS.Ok zero.

(** The callback of the lead-time [reduce] (lines 131-135). *)
Definition leadTime_step (acc : JS.number) (b : Booking)
  : JS.result JS.number :=
  match creation_date b with
  | None => JS.Ok acc
  | Some created =>
      leadDays <-
        JS.div (JS.sub (JS.getTime (arrival b)) (JS.getTime created))
          (JS.of_Z (1000 * 3600 * 24)) ;;
      JS.Ok (JS.add acc (if JS.gt leadDays zero then leadDays else zero))
  end.

Definition totalLeadTime (filtered : list Booking) : JS.result JS.number :=
  JS.reduce leadTime_step (confirmedBookings filtered) zero.

Definition avgLeadTime (totalLeadTime : JS.number) (totalBookings : nat)
  : JS.result JS.number :=
  if JS.gt (JS.of_nat totalBookings) zero
  then JS.div totalLeadTime (JS.of_nat totalBookings)
  else JS.Ok zero.

Definition cancellationRate (filtered : list Booking) : JS.result JS.number :=
  if JS.gt (JS.of_nat (List.length filtered)) zero
  then
    r <- JS.div (JS.of_nat (List.length (cancelledBookings filtered)))
           (JS.of_nat (List.length filtered)) ;;
    JS.Ok (JS.mul r (JS.Fin 100%Q))
  else JS.Ok zero.

(** ** The chart series (lines 140-153) *)

Definition monthNames : list string :=
  [ "Jan"; "Feb"; "Mar"; "Apr"; "May"; "Jun";
    "Jul"; "Aug"; "Sep"; "Oct"; "Nov"; "Dec" ]%string.

(** [monthNames[month]]: undefined unless [month] is an index of the array. *)
Definition monthName (month : option Z) : option string :=
  match month with
  | Some m => if m <? 0 then None else nth_error monthNames (Z.to_nat m)
  | None => None
  end.

(** The property key a month number is converted to. *)
Definition month_key (month : option Z) : string :=
  match month with
  | Some m => NilZero.string_of_int (Z.to_int m)
  | None => "NaN"%string
  end.

(** [booking.source || 'Unknown'] *)
Definition channel (booking : Booking) : string :=
  JS.or_string (source booking) "Unknown"%string.

Definition count_booking (e : Month.entry) : Month.entry :=
  Month.mk (Month.name e) (Month.monthIndex e) (Month.bookings e + 1).

Definition add_revenue (x : JS.number) (e : Channel.entry) : Channel.entry :=
  Channel.mk (Channel.name e) (JS.add (Channel.revenue e) x).

(** [(a, b) => a.monthIndex - b.monthIndex] *)
Definition by_monthIndex (a b : Month.entry) : option Z :=
  match Month.monthIndex a, Month.monthIndex b with
  | Some x, Some y => Some (x - y)
  | _, _ => None
  end.

Section Charts.

(** Offset of local time from UTC, in milliseconds, at a given time value. *)
Variable LocalTZA : Z -> Z.

(** [new Date(x).getMonth()]: the month in local time, NaN for an Invalid
    Date. *)
Definition getMonth (d : JS.Date) : option Z :=
  match d with
  | Some t => Some (JS.MonthFromTime (t + LocalTZA t))
  | None => None
  end.

Definition monthly_step (monthlyData : Obj.object Month.entry)
  (booking : Booking) : Obj.object Month.entry :=
  let month := getMonth (arrival booking) in
  let key := month_key month in
  let monthlyData :=
    if Obj.missing monthlyData key
    then Obj.set monthlyData key (Month.mk (monthName month) month 0)
    else monthlyData in
  Obj.update monthlyData key count_booking.

Definition channel_step (channelData : Obj.object Channel.entry)
  (booking : Booking) : Obj.object Channel.entry :=
  let source := channel booking in
  let channelData :=
    if Obj.missing channelData source
    then Obj.set channelData source (Channel.mk source zero)
    else channelData in
  Obj.update channelData source (add_revenue (amount booking)).

(** The body of [confirmedBookings.forEach]. *)
Definition forEach_step
  (st : Obj.object Month.entry * Obj.object Channel.entry)
  (booking : Booking) : Obj.object Month.entry * Obj.object Channel.entry :=
  (monthly_step (fst st) booking, channel_step (snd st) booking).

Definition chartData (filtered : list Booking)
  : Obj.object Month.entry * Obj.object Channel.entry :=
  fold_left forEach_step (confirmedBookings filtered) ([], []).

Definition bookingsByMonth (filtered : list Booking) : list Month.entry :=
  Arr.sort by_monthIndex (Obj.values (fst (chartData filtered))).

Definition revenueByChannel (filtered : list Booking) : list Channel.entry :=
  Obj.values (snd (chartData filtered)).

(** ** The whole computation *)

(** Lines 121-155, on the filtered bookings. *)
Definition aggregate (filtered : list Booking)
  : JS.result ProcessedData.t :=
  let revenue := totalRevenue filtered in
  let count := totalBookings filtered in
  nightsTotal <- totalNights filtered ;;
  bookingValue <- avgBookingValue revenue count ;;
  nightlyRate <- avgNightlyRate revenue nightsTotal ;;
  lengthOfStay <- avgLengthOfStay nightsTotal count ;;
  leadTotal <- totalLeadTime filtered ;;
  leadTime <- avgLeadTime leadTotal count ;;
  cancellation <- cancellationRate filtered ;;
  JS.Ok (ProcessedData.mk revenue count bookingValue nightlyRate
           (bookingsByMonth filtered) (revenueByChannel filtered)
           nightsTotal lengthOfStay leadTime cancellation filtered).

(** The [useMemo] callback.  [allBookings] is always an array (line 96 and
    line 102), which is truthy even when empty, so the guard of line 111 is
    never taken. *)
Definition processedData (allBookings : list Booking)
  (startDate endDate : option JS.Date) : JS.result ProcessedData.t :=
  aggregate (filteredBookings allBookings startDate endDate).

End Charts.

(** ** Closed forms of the intermediate values *)

Module Value.

Local Open Scope Q_scope.

(** The rational [amount] evaluates to. *)
Definition amount (b : Booking) : Q :=
  match total_amount b with
  | Some (JS.Fin q) => if Qeq_bool q 0 then 0 else q
  | _ => 0
  end.

(** The rational [nights_or_zero] evaluates to. *)
Definition nights (b : Booking) : Q :=
  match departure b, arrival b with
  | Some d, Some a =>
      let q := (inject_Z d - inject_Z a) / inject_Z (1000 * 3600 * 24) in
      if Qeq_bool q 0 then 0 else q
  | _, _ => 0
  end.

(** The accumulator after one call of [leadTime_step]. *)
Definition leadTime_step (acc : Q) (b : Booking) : Q :=
  match creation_date b with
  | None => acc
  | Some created =>
      match arrival b, created with
      | Some a, Some c =>
          let q := (inject_Z a - inject_Z c) / inject_Z (1000 * 3600 * 24) in
          acc + (if negb (Qle_bool q 0) then q else 0)
      | _, _ => acc + 0
      end
  end.

Definition totalRevenue (filtered : list Booking) : Q :=
  fold_left (fun acc b => acc + amount b) (confirmedBookings filtered) 0.

Definition totalNights (filtered : list Booking) : Q :=
  fold_left (fun acc b => acc + nights b) (confirmedBookings filtered) 0.

Definition totalLeadTime (filtered : list Booking) : Q :=
  fold_left leadTime_step (confirmedBookings filtered) 0.

(** [total / n] guarded by [n > 0]. *)
Definition average (total : Q) (n : nat) : Q :=
  if (0 <? n)%nat then total / inject_Z (Z.of_nat n) else 0.

Definition avgNightlyRate (revenue nightsTotal : Q) : Q :=
  if negb (Qle_bool nightsTotal 0) then revenue / nightsTotal else 0.

Definition cancellationRate (filtered : list Booking) : Q :=
  if (0 <? List.length filtered)%nat
  then inject_Z (Z.of_nat (List.length (cancelledBookings filtered)))
       / inject_Z (Z.of_nat (List.length filtered)) * 100
  else 0.

End Value.

(** ** The specification's vocabulary *)

Module Spec.

Local Open Scope Q_scope.

(** Order on calendar dates: only two parseable dates compare. *)
Inductive date_le : JS.Date -> JS.Date -> Prop :=
| date_le_intro (a b : Z) : (a <= b)%Z -> date_le (Some a) (Some b).

(** [output] is [input] with exactly the records satisfying [P] kept, in
    their original order. *)
Definition keeps_exactly (P : Booking -> Prop) (input output : list Booking)
  : Prop :=
  exists keep : Booking -> bool,
    output = filter keep input /\ forall b, keep b = true <-> P b.

Definition confirmed (b : Booking) : bool := String.eqb (status b) "Booked".

(** Number of records of a given status. *)
Definition count_status (s : string) (bs : list Booking) : nat :=
  count_occ string_dec (map status bs) s.

Definition sumQ (l : list Q) : Q := fold_right Qplus 0 l.

(** A difference of two time values, in days. *)
Definition days (later earlier : Z) : Q :=
  inject_Z (later - earlier) / inject_Z JS.msPerDay.

(** What one confirmed record adds to the lead-time sum: nothing without a
    creation date, otherwise [max(arrival - creationDate, 0)] in days (a
    difference that is not a number adds nothing either). *)
Definition lead_contribution (b : Booking) : Q :=
  match creation_date b with
  | None => 0
  | Some created =>
      match arrival b, created with
      | Some a, Some c => Qmax (days a c) 0
      | _, _ => 0
      end
  end.

Definition leadTimeSum (bs : list Booking) : Q :=
  sumQ (map lead_contribution (filter confirmed bs)).

Definition avgLeadTimeDays (bs : list Booking) : Q :=
  let n := List.length (filter confirmed bs) in
  if (0 <? n)%nat then leadTimeSum bs / inject_Z (Z.of_nat n) else 0.

(** The distinct elements of a list, each at its first occurrence. *)
Fixpoint first_seen (l : list string) : list string :=
  match l with
  | [] => []
  | x :: l' => x :: filter (fun y => negb (String.eqb y x)) (first_seen l')
  end.

(** The channel labels of the confirmed bookings, in first-seen order. *)
Definition first_seen_channels (bs : list Booking) : list string :=
  first_seen (map channel (filter confirmed bs)).

(** Both labels are array indices and the first is not the larger one. *)
Definition index_le (s t : string) : Prop :=
  exists m n,
    Obj.array_index s = Some m /\ Obj.array_index t = Some n /\ (m <= n)%N.

(** Sum of the amounts of the confirmed bookings of one channel. *)
Definition channel_revenue (s : string) (bs : list Booking) : Q :=
  sumQ (map Value.amount
          (filter (fun b => confirmed b && String.eqb (channel b) s) bs)).

(** The same record with another creation date. *)
Definition with_creation_date (b : Booking) (created : option JS.Date)
  : Booking :=
  mkBooking (arrival b) (departure b) (total_amount b) (source b) (status b)
    created.

(** The reading of "excluded from lead-time averaging": a confirmed record
    without creation date leaves [avgLeadTime] as it is without the record. *)
Definition excluded_from_lead_averaging
  (aggregate : list Booking -> JS.result ProcessedData.t) : Prop :=
  forall (before after : list Booking) (b : Booking) r r',
    status b = "Booked"%string ->
    creation_date b = None ->
    aggregate (before ++ b :: after) = JS.Ok r ->
    aggregate (before ++ after) = JS.Ok r' ->
    JS.num_eq (ProcessedData.avgLeadTime r) (ProcessedData.avgLeadTime r').

Definition cancellationRatePercent (bs : list Booking) : Q :=
  match bs with
  | [] => 0
  | _ :: _ =>
      inject_Z (Z.of_nat (count_status "Cancelled" bs))
      / inject_Z (Z.of_nat (List.length bs)) * 100
  end.

End Spec.

(** ** Grouping into a dictionary *)

(** The pattern of both chart loops: create the entry of a key when the
    dictionary has none, then update the entry found under the key. *)
Module Group.
Section Grouping.

Context {X V : Type}.
Variable key : X -> string.
Variable init : string -> V.
Variable upd : X -> V -> V.

Definition step (o : Obj.object V) (x : X) : Obj.object V :=
  let k := key x in
  Obj.update (if Obj.missing o k then Obj.set o k (init k) else o) k (upd x).

(** The entry of key [k] after the elements of [l]. *)
Definition value (k : string) (l : list X) : V :=
  fold_left (fun v x => upd x v) (filter (fun x => String.eqb (key x) k) l)
    (init k).

(** The keys that get an own property. *)
Definition keys (l : list X) : list string :=
  filter (fun k => negb (Obj.inherited k)) (Spec.first_seen (map key l)).

End Grouping.
End Group.

(** The entry [channelData] holds under a key after the loop. *)
Definition channel_entry (filtered : list Booking) (k : string)
  : Channel.entry :=
  Group.value channel (fun k => Channel.mk k zero)
    (fun b => add_revenue (amount b)) k (confirmedBookings filtered).

(** The month a key of [monthlyData] stands for. *)
Definition month_of_key (k : string) : option Z :=
  option_map Z.of_N (Obj.array_index k).

(** The key of a booking in [monthlyData]. *)
Definition monthly_key (tz : Z -> Z) (b : Booking) : string :=
  month_key (getMonth tz (arrival b)).

Definition monthly_init (k : string) : Month.entry :=
  Month.mk (monthName (month_of_key k)) (month_of_key k) 0.

(** The entry [monthlyData] holds under a key after the loop. *)
Definition monthly_entry (tz : Z -> Z) (filtered : list Booking) (k : string)
  : Month.entry :=
  Group.value (monthly_key tz) monthly_init (fun _ => count_booking) k
    (confirmedBookings filtered).

Module Series.

(** What [getMonth] can return: NaN or a month number. *)
Definition valid_month (m : option Z) : Prop :=
  forall z, m = Some z -> 0 <= z < 12.

Definition same_month (a b : option Z) : bool :=
  match a, b with
  | Some x, Some y => x =? y
  | None, None => true
  | _, _ => false
  end.

(** Number of confirmed bookings arriving in a month ([None]: on no date). *)
Definition month_count (tz : Z -> Z) (bs : list Booking) (m : option Z)
  : nat :=
  List.length
    (filter (fun b => Spec.confirmed b
                      && same_month (getMonth tz (arrival b)) m) bs).

Definition month_entry (tz : Z -> Z) (bs : list Booking) (m : option Z)
  : Month.entry :=
  Month.mk (monthName m) m (Z.of_nat (month_count tz bs m)).

(** Strictly ascending month index, an entry without month index last. *)
Definition month_before (a b : Month.entry) : Prop :=
  match Month.monthIndex a, Month.monthIndex b with
  | Some x, Some y => x < y
  | Some _, None => True
  | None, _ => False
  end.

End Series.

(** ** Sample data *)

Module Sample.

Local Open Scope string_scope.

(** Local time is UTC. *)
Definition utc : Z -> Z := fun _ => 0.

Definition at_10h (year month day : Z) : JS.Date :=
  Some (JS.UTC year month day + 10 * 3600 * 1000).

Definition date (year month day : Z) : JS.Date :=
  Some (JS.UTC year month day).

Definition paid (n : Z) : option JS.number := Some (JS.of_Z n).

(** The four records of [MOCK_BOOKINGS] (lines 50-55). *)
Definition booking1 : Booking :=
  mkBooking (date 2024 1 15) (date 2024 1 20) (paid 500) (Some "Airbnb")
    "Booked" (Some (at_10h 2023 12 15)).
Definition booking2 : Booking :=
  mkBooking (date 2024 2 10) (date 2024 2 15) (paid 650) (Some "Booking.com")
    "Booked" (Some (at_10h 2024 1 10)).
Definition booking3 : Booking :=
  mkBooking (date 2024 2 20) (date 2024 2 25) (paid 550) (Some "Direct")
    "Booked" (Some (at_10h 2024 2 1)).
Definition booking4 : Booking :=
  mkBooking (date 2024 3 5) (date 2024 3 10) (paid 700) (Some "Airbnb")
    "Cancelled" (Some (at_10h 2024 2 15)).

Definition MOCK_BOOKINGS : list Booking :=
  [booking1; booking2; booking3; booking4].

(** A confirmed booking made ten days ahead, and one without a creation
    date. *)
Definition ten_days_ahead : Booking :=
  mkBooking (date 2024 1 15) (date 2024 1 20) (paid 500) (Some "Airbnb")
    "Booked" (Some (date 2024 1 5)).
Definition no_creation_date : Booking :=
  mkBooking (date 2024 2 10) (date 2024 2 15) (paid 650) (Some "Direct")
    "Booked" None.

(** A confirmed booking whose arrival is not a date, and one that departs
    two days before it arrives. *)
Definition undated : Booking :=
  mkBooking None (date 2024 1 20) (paid 300) (Some "Direct") "Booked" None.
Definition misordered : Booking :=
  mkBooking (date 2024 1 20) (date 2024 1 18) (paid 300) (Some "Direct")
    "Booked" None.

(** A confirmed booking without an amount. *)
Definition unpriced : Booking :=
  mkBooking (date 2024 1 15) (date 2024 1 20) None (Some "Direct") "Booked"
    None.

(** A confirmed booking whose channel label is the decimal numeral 7. *)
Definition channel_seven : Booking :=
  mkBooking (date 2024 3 5) (date 2024 3 10) (paid 70) (Some "7")
    "Booked" None.

(** A confirmed booking whose channel label is a name every object
    inherits. *)
Definition channel_constructor : Booking :=
  mkBooking (date 2024 3 5) (date 2024 3 10) (paid 70) (Some "constructor")
    "Booked" None.

(** Every first and twenty-eighth day of the months of 1900-2100, with the
    month number (0-11) expected for it. *)
Definition calendar : list (Z * Z) :=
  flat_map (fun y =>
    flat_map (fun m => [(JS.UTC y m 1, m - 1); (JS.UTC y m 28, m - 1)])
      (map Z.of_nat (seq 1 12)))
    (map Z.of_nat (seq 1900 201)).

End Sample.

(** ** The bookings table (bookings.js, line 282) *)



(** Vocabulary of the properties of the table and of the series totals. *)
Module Table.



Definition sumZ (l : list Z) : Z := fold_right Z.add 0 l.

(** The rational held by a number, 0 for NaN. *)
Definition rational (x : JS.number) : Q :=
  match x with
  | JS.Fin q => q
  | JS.NaN => 0%Q
  end.

(** The all-zero record returned on an empty selection. *)
Definition nothing : ProcessedData.t :=
  ProcessedData.mk zero 0 zero zero [] [] zero zero zero zero [].

End Table.

(** ** The question form (bookings.js, lines 160-188) *)

(** One element of [simplifiedData]. *)
Module Simplified.
Record t : Type := mk {
  arrival : JS.Date;
  departure : JS.Date;
  nights : JS.number;
  total_amount : option JS.number;
  source : option string;
  status : string;
  creation_date : option JS.Date
}.
End Simplified.

(** The callback of [filteredBookings.map] (lines 180-188). *)
Definition simplify (b : Booking) : JS.result Simplified.t :=
  n <- JS.div (JS.sub (JS.getTime (departure b)) (JS.getTime (arrival b)))
         (JS.of_Z (1000 * 60 * 60 * 24)) ;;
  JS.Ok (Simplified.mk (arrival b) (departure b) n (total_amount b)
           (source b) (status b) (creation_date b)).

(** [Array.prototype.map] with a callback that may divide. *)
Fixpoint mapM {A B : Type} (f : A -> JS.result B) (l : list A)
  : JS.result (list B) :=
  match l with
  | [] => JS.Ok []
  | x :: l' => y <- f x ;; ys <- mapM f l' ;; JS.Ok (y :: ys)
  end.

Definition simplifiedData (filtered : list Booking)
  : JS.result (list Simplified.t) :=
  mapM simplify filtered.

(** What [handleAskAI] has decided when it reaches the [fetch]: an error
    message set with [setInsightsError], or the data and the question put
    in the request. *)
Inductive asked : Type :=
| InsightsError (message : string)
| Request (data : list Simplified.t) (question : string).

(** [handleAskAI] up to the request; [question] is [userQuestion.trim()]. *)
Definition handleAskAI (question : string) (filtered : list Booking)
  : JS.result asked :=
  if String.eqb question ""
  then JS.Ok (InsightsError "Please enter a question.")
  else if (List.length filtered =? 0)%nat
  then JS.Ok (InsightsError
    "No booking data available in the selected date range to analyze.")
  else data <- simplifiedData filtered ;; JS.Ok (Request data question).

(** ** Rendering of the answers: [parseMarkdown] (bookings.js, lines
    37-43, and lodgify-dashboard.jsx, lines 8-13) *)

(** A string is its sequence of UTF-16 code units, as the regular
    expressions (which have no [u] flag) see it. *)
Module Md.

Definition text : Type := list N.

(** The code units of an ASCII literal. *)
Definition lit (s : string) : text :=
  map N_of_ascii (list_ascii_of_string s).

Definition star : N := 42.
Definition newline : N := 10.

(** The characters [.] does not match: LF, CR, U+2028 and U+2029. *)
Definition line_terminator (c : N) : bool :=
  ((c =? 10) || (c =? 13) || (c =? 8232) || (c =? 8233))%N.

Fixpoint starts_with (d l : text) : bool :=
  match d, l with
  | [], _ => true
  | _ :: _, [] => false
  | x :: d', y :: l' => (x =? y)%N && starts_with d' l'
  end.

(** [(.*?)d] at the start of [l]: the shortest run of characters other than
    line terminators that is followed by [d], and what follows [d]. *)
Fixpoint close (d l : text) : option (text * text) :=
  if starts_with d l then Some ([], skipn (List.length d) l)
  else match l with
       | [] => None
       | c :: l' =>
           if line_terminator c then None
           else match close d l' with
                | Some (content, rest) => Some (c :: content, rest)
                | None => None
                end
       end.

(** [l.replace(/d(.*?)d/g, 'o$1c')]: at each position, from left to right,
    a match is replaced and the search resumes after it; where there is no
    match the character is kept.  [skip] counts the characters of [l] that
    the last match still covers. *)
Fixpoint replace_delimited (d o c : text) (skip : nat) (l : text) : text :=
  match l with
  | [] => []
  | x :: l' =>
      match skip with
      | S k => replace_delimited d o c k l'
      | O =>
          if starts_with d l then
            match close d (skipn (List.length d) l) with
            | Some (content, _) =>
                o ++ content ++ c
                  ++ replace_delimited d o c
                       (List.length d + List.length content
                        + List.length d - 1) l'
            | None => x :: replace_delimited d o c 0 l'
            end
          else x :: replace_delimited d o c 0 l'
      end
  end.

(** [.replace(/\*\*(.*?)\*\*/g, '<strong>$1</strong>')] *)
Definition bold (l : text) : text :=
  replace_delimited (lit "**") (lit "<strong>") (lit "</strong>") 0 l.

(** [.replace(/\*(.*?)\*/g, '<em>$1</em>')] *)
Definition italics (l : text) : text :=
  replace_delimited (lit "*") (lit "<em>") (lit "</em>") 0 l.

(** What the greedy group of the list-item pattern captures: the rest of
    the line. *)
Fixpoint line (l : text) : text :=
  match l with
  | [] => []
  | c :: l' => if line_terminator c then [] else c :: line l'
  end.

(** The third [replace], global and multiline: a hyphen and a space at
    the start of a line, with the rest of the line, become a list item.
    [at_start] tells whether [^] matches at the head of [l]: at the start
    of the input and after a line terminator. *)
Fixpoint replace_items (skip : nat) (at_start : bool) (l : text) : text :=
  match l with
  | [] => []
  | x :: l' =>
      match skip with
      | S k => replace_items k (line_terminator x) l'
      | O =>
          if at_start && starts_with (lit "- ") l then
            let content := line (skipn 2 l) in
            lit "<li class=" ++ [34%N] ++ lit "ml-4 list-disc" ++ [34%N]
              ++ lit ">" ++ content ++ lit "</li>"
              ++ replace_items (1 + List.length content) false l'
          else x :: replace_items 0 (line_terminator x) l'
      end
  end.

Definition list_items (l : text) : text := replace_items 0 true l.

(** [.replace(/\n/g, '<br />')] *)
Definition line_breaks (l : text) : text :=
  flat_map (fun c => if (c =? newline)%N then lit "<br />" else [c]) l.

(** The version of lodgify-dashboard.jsx: bold, italics, list items. *)
Definition parseMarkdown_legacy (t : text) : text :=
  list_items (italics (bold t)).

(** The version of bookings.js, which also converts the newlines. *)
Definition parseMarkdown (t : text) : text :=
  line_breaks (list_items (italics (bold t))).

(** The opening tag of a list item. *)
Definition li_open : text :=
  lit "<li class=" ++ [34%N] ++ lit "ml-4 list-disc" ++ [34%N] ++ lit ">".

(** Does a character occur in a text? *)
Definition has (c : N) (t : text) : bool := existsb (N.eqb c) t.

(** A text of one line: without line terminator. *)
Definition one_line (t : text) : bool :=
  forallb (fun c => negb (line_terminator c)) t.

End Md.

(** ** The earlier dashboard (lodgify-dashboard.jsx, lines 128-151) *)

(** The earlier version of the dashboard has no date filter and no guard
    against missing values, and returns six of the eleven fields.  It reads
    the amount of a booking from the field [totalAmount]: in this module
    [total_amount] stands for that field. *)

Module LegacyData.
Record t : Type := mk {
  totalRevenue : JS.number;
  totalBookings : nat;
  avgBookingValue : JS.number;
  avgNightlyRate : JS.number;
  bookingsByMonth : list Month.entry;
  revenueByChannel : list Channel.entry
}.
End LegacyData.

Module Legacy.

(** [b.totalAmount] as an operand of [+]: undefined is converted to NaN. *)
Definition amount (b : Booking) : JS.number :=
  match total_amount b with
  | Some x => x
  | None => JS.NaN
  end.

Definition totalRevenue (bookings : list Booking) : JS.number :=
  fold_left (fun acc b => JS.add acc (amount b)) (confirmedBookings bookings)
    zero.

Definition totalNights (bookings : list Booking) : JS.result JS.number :=
  JS.reduce (fun acc b => n <- nights b ;; JS.Ok (JS.add acc n))
    (confirmedBookings bookings) zero.

Section Charts.

Variable LocalTZA : Z -> Z.

Definition channel_step (channelData : Obj.object Channel.entry)
  (booking : Booking) : Obj.object Channel.entry :=
  let source := channel booking in
  let channelData :=
    if Obj.missing channelData source
    then Obj.set channelData source (Channel.mk source zero)
    else channelData in
  Obj.update channelData source (add_revenue (amount booking)).

Definition forEach_step
  (st : Obj.object Month.entry * Obj.object Channel.entry)
  (booking : Booking) : Obj.object Month.entry * Obj.object Channel.entry :=
  (monthly_step LocalTZA (fst st) booking, channel_step (snd st) booking).

Definition chartData (bookings : list Booking)
  : Obj.object Month.entry * Obj.object Channel.entry :=
  fold_left forEach_step (confirmedBookings bookings) ([], []).

Definition bookingsByMonth (bookings : list Booking) : list Month.entry :=
  Arr.sort by_monthIndex (Obj.values (fst (chartData bookings))).

Definition revenueByChannel (bookings : list Booking) : list Channel.entry :=
  Obj.values (snd (chartData bookings)).

(** The [useMemo] callback ([bookings] is always an array). *)
Definition processedData (bookings : list Booking)
  : JS.result LegacyData.t :=
  let revenue := totalRevenue bookings in
  let count := totalBookings bookings in
  nightsTotal <- totalNights bookings ;;
  bookingValue <- avgBookingValue revenue count ;;
  nightlyRate <- avgNightlyRate revenue nightsTotal ;;
  JS.Ok (LegacyData.mk revenue count bookingValue nightlyRate
           (bookingsByMonth bookings) (revenueByChannel bookings)).

End Charts.



End Legacy.

(** * Properties *)

(** ** Numbers and dates *)

Example month_of_2024_01_15 : JS.MonthFromTime (JS.UTC 2024 1 15) = 0.
Proof. reflexivity. Qed.
Example month_of_2024_02_29 : JS.MonthFromTime (JS.UTC 2024 2 29) = 1.
Proof. reflexivity. Qed.
Example month_of_1969_12_31 : JS.MonthFromTime (JS.UTC 1969 12 31) = 11.
Proof. reflexivity. Qed.
Example utc_epoch : JS.UTC 1970 1 1 = 0.
Proof. reflexivity. Qed.
Example utc_2024_01_15 : JS.UTC 2024 1 15 = 1705276800000.
Proof. reflexivity. Qed.

Example month_of_calendar :
  forallb (fun tm => JS.MonthFromTime (fst tm) =? snd tm) Sample.calendar
  = true.
Proof. vm_compute. reflexivity. Qed.

Example array_index_examples :
  Obj.array_index "0" = Some 0%N
  /\ Obj.array_index "7" = Some 7%N
  /\ Obj.array_index "07" = None
  /\ Obj.array_index "4294967294" = Some 4294967294%N
  /\ Obj.array_index "4294967295" = None
  /\ Obj.array_index "NaN" = None
  /\ Obj.array_index "Airbnb" = None.
Proof. repeat split; reflexivity. Qed.

Lemma MonthFromTime_range (t : Z) : 0 <= JS.MonthFromTime t < 12.
Proof.
  unfold JS.MonthFromTime.
  set (z := JS.Day t + 719468).
  generalize z; clear z t; intro z.
  cbv zeta.
  pose proof (Z.mod_pos_bound z 146097 ltac:(lia)) as Hdoe.
  set (doe := z mod 146097) in *. clearbody doe.
  destruct (Z.ltb_spec ((5 * (doe - (365 * ((doe - doe / 1460 + doe / 36524 - doe / 146096) / 365) + (doe - doe / 1460 + doe / 36524 - doe / 146096) / 365 / 4 - (doe - doe / 1460 + doe / 36524 - doe / 146096) / 365 / 100)) + 2) / 153) 10);
  Z.to_euclidean_division_equations; lia.
Qed.

Lemma getMonth_range (tz : Z -> Z) (d : JS.Date) (m : Z) :
  getMonth tz d = Some m -> 0 <= m < 12.
Proof.
  destruct d as [t|]; simpl; intros [= <-]. apply MonthFromTime_range.
Qed.

Lemma ge_getTime (x y : JS.Date) :
  JS.ge (JS.getTime x) (JS.getTime y) = true <-> Spec.date_le y x.
Proof.
  destruct x as [a|], y as [b|]; simpl;
    try (split; [discriminate | inversion 1]).
  rewrite Qle_bool_iff, <- Zle_Qle.
  split; [intro H; now constructor | now inversion 1].
Qed.

Lemma le_getTime (x y : JS.Date) :
  JS.le (JS.getTime x) (JS.getTime y) = true <-> Spec.date_le x y.
Proof.
  destruct x as [a|], y as [b|]; simpl;
    try (split; [discriminate | inversion 1]).
  rewrite Qle_bool_iff, <- Zle_Qle.
  split; [intro H; now constructor | now inversion 1].
Qed.

(** ** The date-range filter *)

Lemma filter_twice {A : Type} (p : A -> bool) (l : list A) :
  filter p (filter p l) = filter p l.
Proof.
  induction l as [|x l IH]; simpl; [reflexivity|].
  destruct (p x) eqn:Hx; simpl; [rewrite Hx, IH|]; auto.
Qed.

Lemma filter_all {A : Type} (l : list A) : filter (fun _ => true) l = l.
Proof. induction l; simpl; congruence. Qed.

(** C3: the filter is a four-case contract on the two optional bounds: no
    bound returns the input as it is; a start bound keeps exactly the records
    arriving on or after it; an end bound exactly those arriving on or before
    it; both bounds exactly those in the closed range; and with a bound
    present a record whose arrival is not a date is dropped. *)
Theorem filter_contract (allBookings : list Booking) :
  filteredBookings allBookings None None = allBookings
  /\ (forall s,
        Spec.keeps_exactly (fun b => Spec.date_le s (arrival b)) allBookings
          (filteredBookings allBookings (Some s) None))
  /\ (forall e,
        Spec.keeps_exactly (fun b => Spec.date_le (arrival b) e) allBookings
          (filteredBookings allBookings None (Some e)))
  /\ (forall s e,
        Spec.keeps_exactly
          (fun b => Spec.date_le s (arrival b) /\ Spec.date_le (arrival b) e)
          allBookings (filteredBookings allBookings (Some s) (Some e)))
  /\ (forall s e b,
        s <> None \/ e <> None ->
        In b (filteredBookings allBookings s e) ->
        arrival b <> None).
Proof.
  unfold filteredBookings, Spec.keeps_exactly.
  split; [apply filter_all|].
  split; [intro s; eexists; split; [reflexivity|]; intro b; simpl;
          apply ge_getTime|].
  split; [intro e; eexists; split; [reflexivity|]; intro b; simpl;
          apply le_getTime|].
  split.
  - intros s e; eexists; split; [reflexivity|]; intro b; simpl.
    now rewrite andb_true_iff, ge_getTime, le_getTime.
  - intros s e b Hbound Hin Harr.
    apply filter_In in Hin as [_ Hkeep].
    unfold in_range in Hkeep; rewrite Harr in Hkeep.
    destruct s as [s|], e as [e|]; simpl in Hkeep;
      try discriminate; destruct Hbound; congruence.
Qed.

Lemma filter_contract_witness :
  (Some (Sample.date 2024 1 1) <> None \/ @None JS.Date <> None)
  /\ In Sample.booking1
       (filteredBookings [Sample.undated; Sample.booking1]
          (Some (Sample.date 2024 1 1)) None)
  /\ arrival Sample.booking1 <> None.
Proof.
  split; [left; discriminate|].
  split; [simpl; left; reflexivity|].
  apply (proj2 (proj2 (proj2 (proj2
           (filter_contract [Sample.undated; Sample.booking1]))))
           (Some (Sample.date 2024 1 1)) None Sample.booking1).
  - left; discriminate.
  - simpl; left; reflexivity.
Defined.

(** C9: filtering twice with the same bounds is filtering once. *)
Theorem filter_idempotence (allBookings : list Booking)
  (startDate endDate : option JS.Date) :
  filteredBookings (filteredBookings allBookings startDate endDate)
    startDate endDate
  = filteredBookings allBookings startDate endDate.
Proof. apply filter_twice. Qed.

(** ** Evaluation of the KPIs *)

Lemma reduce_total {A B : Type} (f : B -> A -> JS.result B) (g : B -> A -> B)
  (l : list A) (acc : B) :
  (forall a x, f a x = JS.Ok (g a x)) ->
  JS.reduce f l acc = JS.Ok (fold_left g l acc).
Proof.
  intro Hf. revert acc.
  induction l as [|x l IH]; intro acc; simpl; [reflexivity|].
  now rewrite Hf; simpl.
Qed.

Lemma fold_left_Fin {A : Type} (g : Q -> A -> Q) (l : list A) (a : Q) :
  fold_left (fun acc x =>
               match acc with JS.Fin q => JS.Fin (g q x) | JS.NaN => JS.NaN end)
    l (JS.Fin a)
  = JS.Fin (fold_left g l a).
Proof.
  revert a; induction l as [|x l IH]; intro a; simpl; [reflexivity|].
  apply IH.
Qed.

Lemma fold_left_ext_eq {A B : Type} (f g : B -> A -> B) (l : list A) (a : B) :
  (forall acc x, f acc x = g acc x) -> fold_left f l a = fold_left g l a.
Proof.
  intro H; revert a; induction l as [|x l IH]; intro a; simpl;
    [reflexivity|].
  now rewrite H, IH.
Qed.

Lemma div_by_msPerDay (x : JS.number) :
  JS.div x (JS.of_Z (1000 * 3600 * 24))
  = JS.Ok match x with
          | JS.NaN => JS.NaN
          | JS.Fin a => JS.Fin (a / inject_Z (1000 * 3600 * 24))
          end.
Proof. destruct x; reflexivity. Qed.

Lemma amount_value (b : Booking) : amount b = JS.Fin (Value.amount b).
Proof.
  unfold amount, Value.amount, JS.or_undefined, JS.or, JS.truthy.
  destruct (total_amount b) as [[|q]|]; try reflexivity.
  now destruct (Qeq_bool q 0).
Qed.

Lemma nights_or_zero_value (b : Booking) :
  nights_or_zero b = JS.Ok (JS.Fin (Value.nights b)).
Proof.
  unfold nights_or_zero, nights, Value.nights.
  rewrite div_by_msPerDay.
  destruct (departure b) as [d|], (arrival b) as [a|]; simpl; try reflexivity.
  unfold JS.or, JS.truthy.
  now destruct (Qeq_bool _ 0).
Qed.

Lemma leadTime_step_value (acc : Q) (b : Booking) :
  leadTime_step (JS.Fin acc) b = JS.Ok (JS.Fin (Value.leadTime_step acc b)).
Proof.
  unfold leadTime_step, Value.leadTime_step.
  destruct (creation_date b) as [created|]; [|reflexivity].
  rewrite div_by_msPerDay.
  destruct (arrival b) as [a|], created as [c|]; simpl; try reflexivity.
  now destruct (Qle_bool _ 0).
Qed.

Lemma totalRevenue_value (filtered : list Booking) :
  totalRevenue filtered = JS.Fin (Value.totalRevenue filtered).
Proof.
  unfold totalRevenue, Value.totalRevenue, zero.
  rewrite <- fold_left_Fin.
  apply fold_left_ext_eq.
  intros acc b; rewrite amount_value; now destruct acc.
Qed.

Lemma reduce_Fin {A : Type} (f : JS.number -> A -> JS.result JS.number)
  (g : Q -> A -> Q) (l : list A) (a : Q) :
  (forall acc x, f (JS.Fin acc) x = JS.Ok (JS.Fin (g acc x))) ->
  JS.reduce f l (JS.Fin a) = JS.Ok (JS.Fin (fold_left g l a)).
Proof.
  intro Hf. revert a.
  induction l as [|x l IH]; intro a; simpl; [reflexivity|].
  now rewrite Hf; simpl.
Qed.

Lemma totalNights_value (filtered : list Booking) :
  totalNights filtered = JS.Ok (JS.Fin (Value.totalNights filtered)).
Proof.
  unfold totalNights, Value.totalNights, zero.
  apply reduce_Fin.
  intros acc b; now rewrite nights_or_zero_value.
Qed.

Lemma totalLeadTime_value (filtered : list Booking) :
  totalLeadTime filtered = JS.Ok (JS.Fin (Value.totalLeadTime filtered)).
Proof.
  unfold totalLeadTime, Value.totalLeadTime, zero.
  apply reduce_Fin, leadTime_step_value.
Qed.

Lemma of_nat_positive (n : nat) :
  JS.gt (JS.of_nat n) zero = (0 <? n)%nat.
Proof.
  unfold JS.gt, JS.of_nat, JS.of_Z, zero.
  destruct n as [|n]; [reflexivity|].
  change (0 <? S n)%nat with true.
  apply negb_true_iff, not_true_iff_false.
  rewrite Qle_bool_iff.
  change 0%Q with (inject_Z 0); rewrite <- Zle_Qle; lia.
Qed.

Lemma div_by_count (q : Q) (n : nat) :
  (0 < n)%nat ->
  JS.div (JS.Fin q) (JS.of_nat n)
  = JS.Ok (JS.Fin (q / inject_Z (Z.of_nat n))).
Proof.
  intro Hn. unfold JS.div, JS.of_nat, JS.of_Z.
  destruct (Qeq_bool (inject_Z (Z.of_nat n)) 0) eqn:E; [|reflexivity].
  apply Qeq_bool_iff in E. unfold Qeq in E; simpl in E. lia.
Qed.

Lemma div_by_positive (a b : Q) :
  (0 < b)%Q -> JS.div (JS.Fin a) (JS.Fin b) = JS.Ok (JS.Fin (a / b)).
Proof.
  intro Hb. unfold JS.div.
  destruct (Qeq_bool b 0) eqn:E; [|reflexivity].
  apply Qeq_bool_iff in E. rewrite E in Hb. now apply Qlt_irrefl in Hb.
Qed.

Lemma gt_zero_iff (q : Q) : JS.gt (JS.Fin q) zero = true <-> (0 < q)%Q.
Proof.
  unfold JS.gt, zero.
  rewrite negb_true_iff, <- not_true_iff_false, Qle_bool_iff.
  split; [apply Qnot_le_lt | apply Qlt_not_le].
Qed.

Lemma average_value (total : Q) (n : nat) :
  avgBookingValue (JS.Fin total) n = JS.Ok (JS.Fin (Value.average total n)).
Proof.
  unfold avgBookingValue, Value.average.
  rewrite of_nat_positive.
  destruct (Nat.ltb_spec 0 n) as [Hn|Hn]; [now apply div_by_count|reflexivity].
Qed.

Lemma avgNightlyRate_value (revenue nightsTotal : Q) :
  avgNightlyRate (JS.Fin revenue) (JS.Fin nightsTotal)
  = JS.Ok (JS.Fin (Value.avgNightlyRate revenue nightsTotal)).
Proof.
  unfold avgNightlyRate, Value.avgNightlyRate.
  destruct (JS.gt (JS.Fin nightsTotal) zero) eqn:E.
  - pose proof E as Hpos. apply gt_zero_iff in Hpos.
    unfold JS.gt, zero in E; rewrite E.
    now apply div_by_positive.
  - unfold JS.gt, zero in E; now rewrite E.
Qed.

Lemma cancellationRate_value (filtered : list Booking) :
  cancellationRate filtered
  = JS.Ok (JS.Fin (Value.cancellationRate filtered)).
Proof.
  unfold cancellationRate, Value.cancellationRate.
  rewrite of_nat_positive.
  destruct (Nat.ltb_spec 0 (List.length filtered)) as [Hn|Hn];
    [|reflexivity].
  unfold JS.of_nat at 1, JS.of_Z at 1.
  now rewrite div_by_count.
Qed.

(** The record [aggregate] returns, field by field. *)
Lemma aggregate_value (tz : Z -> Z) (filtered : list Booking) :
  aggregate tz filtered
  = JS.Ok
      (ProcessedData.mk
         (JS.Fin (Value.totalRevenue filtered))
         (totalBookings filtered)
         (JS.Fin (Value.average (Value.totalRevenue filtered)
                    (totalBookings filtered)))
         (JS.Fin (Value.avgNightlyRate (Value.totalRevenue filtered)
                    (Value.totalNights filtered)))
         (bookingsByMonth tz filtered)
         (revenueByChannel tz filtered)
         (JS.Fin (Value.totalNights filtered))
         (JS.Fin (Value.average (Value.totalNights filtered)
                    (totalBookings filtered)))
         (JS.Fin (Value.average (Value.totalLeadTime filtered)
                    (totalBookings filtered)))
         (JS.Fin (Value.cancellationRate filtered))
         filtered).
Proof.
  unfold aggregate.
  rewrite totalRevenue_value, totalNights_value; simpl.
  rewrite average_value; simpl.
  rewrite avgNightlyRate_value; simpl.
  unfold avgLengthOfStay; fold (avgBookingValue (JS.Fin (Value.totalNights filtered)) (totalBookings filtered)).
  rewrite average_value; simpl.
  rewrite totalLeadTime_value; simpl.
  unfold avgLeadTime; fold (avgBookingValue (JS.Fin (Value.totalLeadTime filtered)) (totalBookings filtered)).
  rewrite average_value; simpl.
  now rewrite cancellationRate_value.
Qed.

(** ** Sums *)

Lemma fold_left_sumQ {A : Type} (g : A -> Q) (l : list A) (a : Q) :
  (fold_left (fun acc x => acc + g x) l a == a + Spec.sumQ (map g l))%Q.
Proof.
  revert a; induction l as [|x l IH]; intro a; simpl.
  - ring.
  - rewrite IH. ring.
Qed.

Lemma sumQ_app (l1 l2 : list Q) :
  (Spec.sumQ (l1 ++ l2) == Spec.sumQ l1 + Spec.sumQ l2)%Q.
Proof.
  induction l1 as [|x l1 IH]; simpl; [ring|].
  rewrite IH; ring.
Qed.

Lemma sumQ_nonneg (l : list Q) :
  Forall (fun q => 0 <= q)%Q l -> (0 <= Spec.sumQ l)%Q.
Proof.
  induction 1 as [|x l Hx _ IH]; simpl; [apply Qle_refl|].
  lra.
Qed.

Lemma totalNights_sum (filtered : list Booking) :
  (Value.totalNights filtered
   == Spec.sumQ (map Value.nights (confirmedBookings filtered)))%Q.
Proof.
  unfold Value.totalNights. rewrite fold_left_sumQ. ring.
Qed.

Lemma totalRevenue_sum (filtered : list Booking) :
  (Value.totalRevenue filtered
   == Spec.sumQ (map Value.amount (confirmedBookings filtered)))%Q.
Proof.
  unfold Value.totalRevenue. rewrite fold_left_sumQ. ring.
Qed.

Lemma confirmedBookings_app (l1 l2 : list Booking) :
  confirmedBookings (l1 ++ l2) = confirmedBookings l1 ++ confirmedBookings l2.
Proof. apply filter_app. Qed.

Lemma div_never_by_zero (x y : JS.number) :
  JS.gt y zero = true -> JS.div x y <> JS.DivisionByZero.
Proof.
  destruct y as [|b]; [discriminate|].
  intro Hpos. apply gt_zero_iff in Hpos.
  unfold JS.div.
  destruct (Qeq_bool b 0) eqn:E.
  - apply Qeq_bool_iff in E. rewrite E in Hpos.
    now apply Qlt_irrefl in Hpos.
  - destruct x; discriminate.
Qed.

(** ** The aggregator on the empty set *)

(** C5: on no bookings at all, whatever the bounds, the computation returns
    (it does not fail) every scalar equal to 0 and both series empty. *)
Theorem aggregate_empty (tz : Z -> Z) (startDate endDate : option JS.Date) :
  processedData tz [] startDate endDate
  = JS.Ok (ProcessedData.mk zero 0 zero zero [] [] zero zero zero zero []).
Proof. reflexivity. Qed.

(** ** Guarded divisions *)

(** C8: the computation never divides by zero: it always returns a record,
    in which [avgBookingValue] and [avgLengthOfStay] are the quotients by
    [totalBookings] when that is positive and 0 otherwise, and
    [avgNightlyRate] is the quotient by [totalNights] when that is positive
    and 0 otherwise; and none of the three guarded quotients can divide by
    zero, whatever numbers it is given. *)
Theorem no_division_by_zero (tz : Z -> Z) (filtered : list Booking) :
  (exists r R N,
      aggregate tz filtered = JS.Ok r
      /\ ProcessedData.totalRevenue r = JS.Fin R
      /\ ProcessedData.totalNights r = JS.Fin N
      /\ ProcessedData.totalBookings r = totalBookings filtered
      /\ ((0 < totalBookings filtered)%nat ->
          ProcessedData.avgBookingValue r
          = JS.Fin (R / inject_Z (Z.of_nat (totalBookings filtered)))
          /\ ProcessedData.avgLengthOfStay r
             = JS.Fin (N / inject_Z (Z.of_nat (totalBookings filtered))))
      /\ (totalBookings filtered = 0%nat ->
          ProcessedData.avgBookingValue r = JS.Fin 0
          /\ ProcessedData.avgLengthOfStay r = JS.Fin 0)
      /\ ((0 < N)%Q -> ProcessedData.avgNightlyRate r = JS.Fin (R / N))
      /\ ((N <= 0)%Q -> ProcessedData.avgNightlyRate r = JS.Fin 0))
  /\ (forall x n, avgBookingValue x n <> JS.DivisionByZero)
  /\ (forall x y, avgNightlyRate x y <> JS.DivisionByZero)
  /\ (forall x n, avgLengthOfStay x n <> JS.DivisionByZero).
Proof.
  assert (Hguard : forall x n, avgBookingValue x n <> JS.DivisionByZero).
  { intros x n. unfold avgBookingValue. rewrite of_nat_positive.
    destruct (Nat.ltb_spec 0 n) as [Hn|Hn]; [|discriminate].
    apply div_never_by_zero. rewrite of_nat_positive.
    now apply Nat.ltb_lt. }
  split; [|split; [exact Hguard|split; [|exact Hguard]]].
  - eexists _, _, _. split; [apply aggregate_value|]. simpl.
    split; [reflexivity|]. split; [reflexivity|]. split; [reflexivity|].
    unfold Value.average, Value.avgNightlyRate.
    split; [|split; [|split]].
    + intro Hn. apply Nat.ltb_lt in Hn. now rewrite Hn.
    + intro Hn. now rewrite Hn.
    + intro HN.
      destruct (Qle_bool (Value.totalNights filtered) 0) eqn:E;
        [|reflexivity].
      apply Qle_bool_iff in E. now apply Qle_not_lt in E.
    + intro HN. apply Qle_bool_iff in HN. now rewrite HN.
  - intros x y. unfold avgNightlyRate.
    destruct (JS.gt y zero) eqn:E; [|discriminate].
    destruct y as [|b]; [discriminate|].
    apply div_never_by_zero. exact E.
Qed.

Lemma no_division_by_zero_witness :
  (exists r,
      aggregate Sample.utc Sample.MOCK_BOOKINGS = JS.Ok r
      /\ (0 < totalBookings Sample.MOCK_BOOKINGS)%nat
      /\ JS.num_eq (ProcessedData.avgBookingValue r) (JS.Fin (1700 # 3))
      /\ JS.num_eq (ProcessedData.avgLengthOfStay r) (JS.Fin 5)
      /\ JS.num_eq (ProcessedData.avgNightlyRate r) (JS.Fin (340 # 3)))
  /\ (exists r,
        aggregate Sample.utc [Sample.booking4] = JS.Ok r
        /\ totalBookings [Sample.booking4] = 0%nat
        /\ ProcessedData.avgBookingValue r = JS.Fin 0
        /\ ProcessedData.avgLengthOfStay r = JS.Fin 0
        /\ ProcessedData.avgNightlyRate r = JS.Fin 0).
Proof.
  split.
  - destruct (no_division_by_zero Sample.utc Sample.MOCK_BOOKINGS)
      as [(r & R & N & Hr & HR & HN & _ & Hpos & _ & Hrate & _) _].
    exists r. split; [exact Hr|].
    assert (Hn : (0 < totalBookings Sample.MOCK_BOOKINGS)%nat)
      by (vm_compute; lia).
    split; [exact Hn|].
    rewrite aggregate_value in Hr. injection Hr as <-.
    simpl in HR, HN. injection HR as <-. injection HN as <-.
    destruct (Hpos Hn) as [-> ->].
    rewrite Hrate by (vm_compute; reflexivity).
    repeat split; vm_compute; reflexivity.
  - destruct (no_division_by_zero Sample.utc [Sample.booking4])
      as [(r & R & N & Hr & HR & HN & _ & _ & Hzero & _ & Hrate) _].
    exists r. split; [exact Hr|].
    split; [reflexivity|].
    rewrite aggregate_value in Hr. injection Hr as <-.
    simpl in HR, HN. injection HR as <-. injection HN as <-.
    destruct (Hzero eq_refl) as [-> ->].
    rewrite Hrate by (vm_compute; discriminate).
    repeat split.
Defined.

(** ** Cancellation rate *)

Lemma cancelled_count (filtered : list Booking) :
  List.length (cancelledBookings filtered)
  = Spec.count_status "Cancelled" filtered.
Proof.
  unfold cancelledBookings, Spec.count_status.
  induction filtered as [|b l IH]; simpl; [reflexivity|].
  destruct (string_dec (status b) "Cancelled") as [E|E].
  - apply String.eqb_eq in E. rewrite E. simpl. now rewrite IH.
  - apply String.eqb_neq in E. now rewrite E.
Qed.

Lemma filter_length_bound {A : Type} (p : A -> bool) (l : list A) :
  (List.length (filter p l) <= List.length l)%nat.
Proof.
  induction l as [|x l IH]; simpl; [lia|].
  destruct (p x); simpl; lia.
Qed.

Lemma percentage_bounds (c n : nat) :
  (c <= n)%nat -> (0 < n)%nat ->
  (0 <= inject_Z (Z.of_nat c) / inject_Z (Z.of_nat n) * 100 <= 100)%Q.
Proof.
  intros Hc Hn.
  assert (Hpos : (0 < inject_Z (Z.of_nat n))%Q).
  { change 0%Q with (inject_Z 0). rewrite <- Zlt_Qlt. lia. }
  assert (Hlow : (0 <= inject_Z (Z.of_nat c) / inject_Z (Z.of_nat n))%Q).
  { apply Qle_shift_div_l; [exact Hpos|].
    rewrite Qmult_0_l. change 0%Q with (inject_Z 0).
    rewrite <- Zle_Qle. lia. }
  assert (Hhigh : (inject_Z (Z.of_nat c) / inject_Z (Z.of_nat n) <= 1)%Q).
  { apply Qle_shift_div_r; [exact Hpos|].
    rewrite Qmult_1_l, <- Zle_Qle. lia. }
  split; lra.
Qed.

(** C2: [cancellationRate] is the number of cancelled records over the
    number of all filtered records (whatever their status), times 100, and 0
    on the empty set; it lies between 0 and 100. *)
Theorem cancellationRate_formula (tz : Z -> Z) (filtered : list Booking) :
  exists r rate,
    aggregate tz filtered = JS.Ok r
    /\ ProcessedData.cancellationRate r = JS.Fin rate
    /\ (rate == Spec.cancellationRatePercent filtered)%Q
    /\ (0 <= rate <= 100)%Q.
Proof.
  eexists _, _. split; [apply aggregate_value|]. simpl.
  split; [reflexivity|].
  unfold Value.cancellationRate, Spec.cancellationRatePercent.
  rewrite cancelled_count.
  destruct filtered as [|b l]; simpl (0 <? _)%nat; cbv iota.
  - split; [reflexivity|]. split; [apply Qle_refl|discriminate].
  - split; [reflexivity|].
    rewrite <- cancelled_count.
    apply percentage_bounds; [apply filter_length_bound|simpl; lia].
Qed.

(** ** Lead time *)

Lemma days_difference (a c : Z) :
  ((inject_Z a - inject_Z c) / inject_Z (1000 * 3600 * 24)
   == Spec.days a c)%Q.
Proof.
  unfold Spec.days, Z.sub.
  rewrite inject_Z_plus, inject_Z_opp. reflexivity.
Qed.

Lemma leadTime_step_sum (acc : Q) (b : Booking) :
  (Value.leadTime_step acc b == acc + Spec.lead_contribution b)%Q.
Proof.
  unfold Value.leadTime_step, Spec.lead_contribution.
  destruct (creation_date b) as [created|]; [|ring].
  destruct (arrival b) as [a|], created as [c|]; try reflexivity.
  cbv zeta.
  pose proof (days_difference a c) as Hd.
  destruct (Qle_bool _ 0) eqn:E; simpl.
  - apply Qle_bool_iff in E. rewrite Hd in E.
    now rewrite (Q.max_r _ _ E).
  - apply not_true_iff_false in E. rewrite Qle_bool_iff in E.
    apply Qnot_le_lt, Qlt_le_weak in E. rewrite Hd in E.
    now rewrite (Q.max_l _ _ E), Hd.
Qed.

Lemma fold_leadTime_sum (l : list Booking) (acc : Q) :
  (fold_left Value.leadTime_step l acc
   == acc + Spec.sumQ (map Spec.lead_contribution l))%Q.
Proof.
  revert acc. induction l as [|b l IH]; intro acc; simpl; [ring|].
  rewrite IH, leadTime_step_sum. ring.
Qed.

Lemma totalLeadTime_sum (filtered : list Booking) :
  (Value.totalLeadTime filtered == Spec.leadTimeSum filtered)%Q.
Proof.
  unfold Value.totalLeadTime, Spec.leadTimeSum.
  rewrite fold_leadTime_sum.
  change (filter Spec.confirmed filtered) with (confirmedBookings filtered).
  ring.
Qed.

(** C1: [avgLeadTime] is the sum, over the confirmed bookings that have a
    creation date, of the lead time in days floored at 0, divided by the
    number of all confirmed bookings (those without a creation date
    included), and 0 when there is no confirmed booking. *)
Theorem avgLeadTime_formula (tz : Z -> Z) (filtered : list Booking) :
  exists r avg,
    aggregate tz filtered = JS.Ok r
    /\ ProcessedData.avgLeadTime r = JS.Fin avg
    /\ ProcessedData.totalBookings r
       = List.length (filter Spec.confirmed filtered)
    /\ (avg == Spec.avgLeadTimeDays filtered)%Q.
Proof.
  eexists _, _. split; [apply aggregate_value|]. simpl.
  split; [reflexivity|]. split; [reflexivity|].
  unfold Value.average, Spec.avgLeadTimeDays.
  change (List.length (filter Spec.confirmed filtered))
    with (totalBookings filtered).
  destruct (0 <? totalBookings filtered)%nat; [|reflexivity].
  now rewrite totalLeadTime_sum.
Qed.

(** The dilution on a concrete set: one booking made ten days ahead and one
    without a creation date average to five days. *)
Example avgLeadTime_diluted :
  exists r,
    aggregate Sample.utc [Sample.ten_days_ahead; Sample.no_creation_date]
    = JS.Ok r
    /\ JS.num_eq (ProcessedData.avgLeadTime r) (JS.Fin 5).
Proof.
  eexists. split; [apply aggregate_value|]. vm_compute. reflexivity.
Qed.

(** ** Nights *)

Lemma confirmedBookings_insert (before after : list Booking) (b : Booking) :
  confirmedBookings (before ++ b :: after)
  = confirmedBookings before
    ++ (if Spec.confirmed b then [b] else []) ++ confirmedBookings after.
Proof.
  rewrite confirmedBookings_app. f_equal.
  unfold confirmedBookings at 1, Spec.confirmed. simpl.
  now destruct (status b =? "Booked")%string.
Qed.

Lemma totalNights_insert (before after : list Booking) (b : Booking) :
  (Value.totalNights (before ++ b :: after)
   == Value.totalNights (before ++ after)
      + (if Spec.confirmed b then Value.nights b else 0))%Q.
Proof.
  rewrite !totalNights_sum, confirmedBookings_insert, confirmedBookings_app.
  rewrite !map_app, !sumQ_app.
  destruct (Spec.confirmed b); simpl; ring.
Qed.

Lemma nights_not_a_number (b : Booking) :
  arrival b = None \/ departure b = None -> Value.nights b = 0%Q.
Proof.
  unfold Value.nights.
  intros [H|H]; rewrite H; [now destruct (departure b)|reflexivity].
Qed.

Lemma days_negative (d a : Z) : d < a -> (Spec.days d a < 0)%Q.
Proof.
  intro H. unfold Spec.days.
  apply Qlt_shift_div_r; [reflexivity|].
  rewrite Qmult_0_l. change 0%Q with (inject_Z 0).
  rewrite <- Zlt_Qlt. lia.
Qed.

Lemma nights_misordered (b : Booking) (a d : Z) :
  arrival b = Some a -> departure b = Some d -> d < a ->
  (Value.nights b == Spec.days d a)%Q /\ (Value.nights b < 0)%Q.
Proof.
  intros Ha Hd Hlt. unfold Value.nights. rewrite Ha, Hd. cbv zeta.
  pose proof (days_difference d a) as Hq.
  pose proof (days_negative d a Hlt) as Hneg.
  destruct (Qeq_bool _ 0) eqn:E.
  - apply Qeq_bool_iff in E. rewrite Hq in E. rewrite E in Hneg.
    now apply Qlt_irrefl in Hneg.
  - split; [exact Hq|now rewrite Hq].
Qed.

(** C10: a booking whose arrival or departure is not a date adds exactly 0
    to [totalNights], which is a finite number on every input; a booking
    whose parseable departure precedes its arrival adds the negative
    difference, which does lower the total when the booking is confirmed. *)
Theorem totalNights_unparseable (before after : list Booking) (b : Booking) :
  (forall filtered, exists N, totalNights filtered = JS.Ok (JS.Fin N))
  /\ (arrival b = None \/ departure b = None ->
      nights_or_zero b = JS.Ok zero
      /\ exists N N',
           totalNights (before ++ b :: after) = JS.Ok (JS.Fin N)
           /\ totalNights (before ++ after) = JS.Ok (JS.Fin N')
           /\ (N == N')%Q)
  /\ (forall a d,
        arrival b = Some a -> departure b = Some d -> d < a ->
        exists q,
          nights_or_zero b = JS.Ok (JS.Fin q)
          /\ (q == Spec.days d a)%Q /\ (q < 0)%Q
          /\ (status b = "Booked"%string ->
              exists N N',
                totalNights (before ++ b :: after) = JS.Ok (JS.Fin N)
                /\ totalNights (before ++ after) = JS.Ok (JS.Fin N')
                /\ (N == N' + q)%Q)).
Proof.
  split; [intro filtered; eexists; apply totalNights_value|].
  split.
  - intro Hbad. pose proof (nights_not_a_number b Hbad) as H0.
    split; [now rewrite nights_or_zero_value, H0|].
    eexists _, _.
    split; [apply totalNights_value|]. split; [apply totalNights_value|].
    rewrite totalNights_insert, H0.
    destruct (Spec.confirmed b); ring.
  - intros a d Ha Hd Hlt.
    destruct (nights_misordered b a d Ha Hd Hlt) as [Hq Hneg].
    exists (Value.nights b).
    split; [apply nights_or_zero_value|]. split; [exact Hq|].
    split; [exact Hneg|].
    intro Hst. eexists _, _.
    split; [apply totalNights_value|]. split; [apply totalNights_value|].
    rewrite totalNights_insert.
    unfold Spec.confirmed. rewrite Hst. reflexivity.
Qed.

Lemma totalNights_unparseable_witness :
  (arrival Sample.undated = None \/ departure Sample.undated = None)
  /\ nights_or_zero Sample.undated = JS.Ok zero
  /\ status Sample.misordered = "Booked"%string
  /\ (exists q N N',
        nights_or_zero Sample.misordered = JS.Ok (JS.Fin q) /\ (q == -2)%Q
        /\ totalNights [Sample.booking1; Sample.misordered]
           = JS.Ok (JS.Fin N)
        /\ totalNights [Sample.booking1] = JS.Ok (JS.Fin N')
        /\ (N == N' + q)%Q).
Proof.
  split; [left; reflexivity|].
  split.
  - apply (proj1 (proj2 (totalNights_unparseable [] [] Sample.undated))).
    left; reflexivity.
  - split; [reflexivity|].
    destruct (proj2 (proj2 (totalNights_unparseable [Sample.booking1] []
                              Sample.misordered))
                (JS.UTC 2024 1 20) (JS.UTC 2024 1 18)
                eq_refl eq_refl eq_refl)
      as (q & Hq & Hdays & _ & Htotal).
    destruct (Htotal eq_refl) as (N & N' & HN & HN' & Hsum).
    exists q, N, N'. split; [exact Hq|].
    split; [rewrite Hdays; vm_compute; reflexivity|].
    split; [exact HN|]. split; [exact HN'|exact Hsum].
Defined.

(** ** Records without a creation date *)

Lemma leadTimeSum_insert (before after : list Booking) (b : Booking) :
  (Spec.leadTimeSum (before ++ b :: after)
   == Spec.leadTimeSum (before ++ after)
      + (if Spec.confirmed b then Spec.lead_contribution b else 0))%Q.
Proof.
  unfold Spec.leadTimeSum.
  change (filter Spec.confirmed) with confirmedBookings.
  rewrite confirmedBookings_insert, confirmedBookings_app.
  rewrite !map_app, !sumQ_app.
  destruct (Spec.confirmed b); simpl; ring.
Qed.

Lemma totalBookings_insert (before after : list Booking) (b : Booking) :
  status b = "Booked"%string ->
  totalBookings (before ++ b :: after) = S (totalBookings (before ++ after)).
Proof.
  intro Hst. unfold totalBookings.
  rewrite confirmedBookings_insert, confirmedBookings_app.
  unfold Spec.confirmed. rewrite Hst. simpl.
  rewrite !length_app. simpl. lia.
Qed.

Lemma fold_left_same_step {A B : Type} (g : B -> A -> B) (x x' : A)
  (l1 l2 : list A) (keep : bool) (a : B) :
  (forall acc, g acc x = g acc x') ->
  fold_left g (l1 ++ (if keep then [x] else []) ++ l2) a
  = fold_left g (l1 ++ (if keep then [x'] else []) ++ l2) a.
Proof.
  intro H. destruct keep; [|reflexivity].
  rewrite !fold_left_app. simpl. now rewrite H.
Qed.

Lemma confirmedBookings_replace (before after : list Booking) (b : Booking)
  (created : option JS.Date) :
  confirmedBookings (before ++ Spec.with_creation_date b created :: after)
  = confirmedBookings before
    ++ (if Spec.confirmed b then [Spec.with_creation_date b created] else [])
    ++ confirmedBookings after.
Proof. now rewrite confirmedBookings_insert. Qed.

(** C4, counterexample: the average over a booking made ten days ahead is
    ten days; adding a confirmed booking without a creation date halves
    it. *)
Lemma absent_creation_date_is_averaged :
  (exists r r',
      aggregate Sample.utc [Sample.ten_days_ahead; Sample.no_creation_date]
      = JS.Ok r
      /\ aggregate Sample.utc [Sample.ten_days_ahead] = JS.Ok r'
      /\ JS.num_eq (ProcessedData.avgLeadTime r) (JS.Fin 5)
      /\ JS.num_eq (ProcessedData.avgLeadTime r') (JS.Fin 10))
  /\ ~ Spec.excluded_from_lead_averaging (aggregate Sample.utc).
Proof.
  split.
  - eexists _, _.
    split; [apply aggregate_value|]. split; [apply aggregate_value|].
    split; vm_compute; reflexivity.
  - intro H.
    specialize (H [Sample.ten_days_ahead] [] Sample.no_creation_date
                  _ _ eq_refl eq_refl
                  (aggregate_value _ _) (aggregate_value _ _)).
    vm_compute in H. discriminate H.
Qed.

(** C4, as the code has it: a record without a creation date adds nothing to
    the lead-time sum, but when it is confirmed it still counts in the
    divisor of [avgLeadTime]; and the missing creation date changes no other
    figure: with any creation date in its place the revenue, the counts, the
    nights, the other averages, the cancellation rate and both series are
    the same. *)
Theorem absent_creation_date_effect (tz : Z -> Z)
  (before after : list Booking) (b : Booking) :
  creation_date b = None ->
  (exists L L',
      totalLeadTime (before ++ b :: after) = JS.Ok (JS.Fin L)
      /\ totalLeadTime (before ++ after) = JS.Ok (JS.Fin L')
      /\ (L == L')%Q)
  /\ (status b = "Booked"%string ->
      exists r avg,
        aggregate tz (before ++ b :: after) = JS.Ok r
        /\ ProcessedData.avgLeadTime r = JS.Fin avg
        /\ ProcessedData.totalBookings r
           = S (totalBookings (before ++ after))
        /\ (avg == Spec.leadTimeSum (before ++ after)
                   / inject_Z (Z.of_nat (S (totalBookings (before ++ after)))))%Q)
  /\ (forall created,
      exists r r',
        aggregate tz (before ++ b :: after) = JS.Ok r
        /\ aggregate tz (before ++ Spec.with_creation_date b created :: after)
           = JS.Ok r'
        /\ ProcessedData.totalRevenue r = ProcessedData.totalRevenue r'
        /\ ProcessedData.totalBookings r = ProcessedData.totalBookings r'
        /\ ProcessedData.totalNights r = ProcessedData.totalNights r'
        /\ ProcessedData.avgBookingValue r = ProcessedData.avgBookingValue r'
        /\ ProcessedData.avgNightlyRate r = ProcessedData.avgNightlyRate r'
        /\ ProcessedData.avgLengthOfStay r = ProcessedData.avgLengthOfStay r'
        /\ ProcessedData.cancellationRate r = ProcessedData.cancellationRate r'
        /\ ProcessedData.bookingsByMonth r = ProcessedData.bookingsByMonth r'
        /\ ProcessedData.revenueByChannel r
           = ProcessedData.revenueByChannel r').
Proof.
  intro Hnone.
  assert (Hzero : Spec.lead_contribution b = 0%Q)
    by (unfold Spec.lead_contribution; now rewrite Hnone).
  assert (Hsum : (Spec.leadTimeSum (before ++ b :: after)
                  == Spec.leadTimeSum (before ++ after))%Q).
  { rewrite leadTimeSum_insert, Hzero. destruct (Spec.confirmed b); ring. }
  split; [|split].
  - eexists _, _.
    split; [apply totalLeadTime_value|]. split; [apply totalLeadTime_value|].
    now rewrite !totalLeadTime_sum.
  - intro Hst. eexists _, _.
    split; [apply aggregate_value|].
    cbn [ProcessedData.avgLeadTime ProcessedData.totalBookings].
    split; [reflexivity|]. split; [now apply totalBookings_insert|].
    rewrite (totalBookings_insert _ _ _ Hst).
    unfold Value.average.
    change (0 <? S (totalBookings (before ++ after)))%nat with true.
    cbv iota. now rewrite totalLeadTime_sum, Hsum.
  - intro created. eexists _, _.
    split; [apply aggregate_value|]. split; [apply aggregate_value|]. simpl.
    assert (Hrev : Value.totalRevenue (before ++ b :: after)
                   = Value.totalRevenue
                       (before ++ Spec.with_creation_date b created :: after)).
    { unfold Value.totalRevenue.
      rewrite confirmedBookings_insert, confirmedBookings_replace.
      now apply fold_left_same_step. }
    assert (Hcount : totalBookings (before ++ b :: after)
                     = totalBookings
                         (before ++ Spec.with_creation_date b created :: after)).
    { unfold totalBookings.
      rewrite confirmedBookings_insert, confirmedBookings_replace.
      rewrite !length_app. now destruct (Spec.confirmed b). }
    assert (Hnights : Value.totalNights (before ++ b :: after)
                      = Value.totalNights
                          (before ++ Spec.with_creation_date b created :: after)).
    { unfold Value.totalNights.
      rewrite confirmedBookings_insert, confirmedBookings_replace.
      now apply fold_left_same_step. }
    assert (Hcancel : Value.cancellationRate (before ++ b :: after)
                      = Value.cancellationRate
                          (before ++ Spec.with_creation_date b created :: after)).
    { unfold Value.cancellationRate, cancelledBookings.
      rewrite !filter_app, !length_app.
      cbn [filter List.length Spec.with_creation_date status].
      now destruct (status b =? "Cancelled")%string. }
    assert (Hcharts : chartData tz (before ++ b :: after)
                      = chartData tz
                          (before ++ Spec.with_creation_date b created :: after)).
    { unfold chartData.
      rewrite confirmedBookings_insert, confirmedBookings_replace.
      now apply fold_left_same_step. }
    unfold bookingsByMonth, revenueByChannel.
    now rewrite Hrev, Hcount, Hnights, Hcancel, Hcharts.
Qed.

Lemma absent_creation_date_effect_witness :
  creation_date Sample.no_creation_date = None
  /\ status Sample.no_creation_date = "Booked"%string
  /\ exists r avg,
       aggregate Sample.utc [Sample.ten_days_ahead; Sample.no_creation_date]
       = JS.Ok r
       /\ ProcessedData.avgLeadTime r = JS.Fin avg
       /\ ProcessedData.totalBookings r = 2%nat
       /\ (avg == 5)%Q.
Proof.
  split; [reflexivity|]. split; [reflexivity|].
  destruct (proj1 (proj2 (absent_creation_date_effect Sample.utc
                            [Sample.ten_days_ahead] []
                            Sample.no_creation_date eq_refl)) eq_refl)
    as (r & avg & Hr & Havg & Hn & Hval).
  exists r, avg. split; [exact Hr|]. split; [exact Havg|].
  split; [exact Hn|].
  rewrite Hval. vm_compute. reflexivity.
Defined.

(** ** Dictionaries *)

Lemma filter_nil_iff {A : Type} (p : A -> bool) (l : list A) :
  filter p l = [] <-> forall x, In x l -> p x = false.
Proof.
  induction l as [|a l IH]; simpl; [tauto|].
  destruct (p a) eqn:E.
  - split; [discriminate|]. intro H. specialize (H a (or_introl eq_refl)).
    congruence.
  - rewrite IH. split.
    + intros H x [<-|Hx]; auto.
    + intros H x Hx. apply H. now right.
Qed.

Lemma first_seen_In (l : list string) (k : string) :
  In k (Spec.first_seen l) <-> In k l.
Proof.
  induction l as [|x l IH]; simpl; [tauto|].
  rewrite filter_In, IH, negb_true_iff, String.eqb_neq.
  destruct (string_dec x k) as [->|Hne]; [tauto|].
  split; [tauto|]. intros [H|H]; [congruence|]. right. split; congruence.
Qed.

Lemma first_seen_NoDup (l : list string) : NoDup (Spec.first_seen l).
Proof.
  induction l as [|x l IH]; simpl; constructor.
  - rewrite filter_In, String.eqb_refl. intros [_ H]; discriminate.
  - now apply NoDup_filter.
Qed.

Lemma filter_without_absent (l : list string) (x : string) :
  ~ In x l -> filter (fun y => negb (String.eqb y x)) l = l.
Proof.
  induction l as [|y l IH]; simpl; intro H; [reflexivity|].
  destruct (String.eqb_spec y x) as [->|Hne]; simpl.
  - exfalso; apply H; now left.
  - rewrite IH; [reflexivity|]. intro; apply H; now right.
Qed.

Lemma first_seen_snoc (l : list string) (x : string) :
  Spec.first_seen (l ++ [x])
  = if in_dec string_dec x l then Spec.first_seen l
    else Spec.first_seen l ++ [x].
Proof.
  induction l as [|a l IH]; simpl; [reflexivity|].
  rewrite IH.
  destruct (string_dec a x) as [->|Hax].
  - destruct (in_dec string_dec x l) as [Hin|Hout]; [reflexivity|].
    rewrite filter_app. simpl. rewrite String.eqb_refl. simpl.
    now rewrite app_nil_r.
  - destruct (in_dec string_dec x l) as [Hin|Hout]; [reflexivity|].
    rewrite filter_app. simpl.
    destruct (String.eqb_spec x a) as [->|_]; [congruence|reflexivity].
Qed.

Section Dictionary.

Context {V : Type}.

Lemma get_own_absent (g : string -> V) (ks : list string) (k : string) :
  ~ In k ks -> Obj.get_own (map (fun k => (k, g k)) ks) k = None.
Proof.
  induction ks as [|a ks IH]; simpl; intro H; [reflexivity|].
  destruct (String.eqb_spec a k) as [->|_]; [exfalso; apply H; now left|].
  apply IH. intro; apply H; now right.
Qed.

Lemma get_own_present (g : string -> V) (ks : list string) (k : string) :
  In k ks -> Obj.get_own (map (fun k => (k, g k)) ks) k = Some (g k).
Proof.
  induction ks as [|a ks IH]; simpl; intro H; [contradiction|].
  destruct (String.eqb_spec a k) as [->|Hne]; [reflexivity|].
  apply IH. destruct H; [contradiction|assumption].
Qed.

Lemma set_fresh (o : Obj.object V) (k : string) (v : V) :
  Obj.get_own o k = None -> Obj.set o k v = o ++ [(k, v)].
Proof.
  induction o as [|[a w] o IH]; simpl; [reflexivity|].
  destruct (String.eqb a k); [discriminate|].
  intro H. now rewrite IH.
Qed.

Lemma update_map (g : string -> V) (ks : list string) (k : string)
  (f : V -> V) :
  Obj.update (map (fun a => (a, g a)) ks) k f
  = map (fun a => (a, if String.eqb a k then f (g a) else g a)) ks.
Proof.
  unfold Obj.update. rewrite map_map. apply map_ext.
  intro a. simpl. now destruct (String.eqb a k).
Qed.

End Dictionary.

Section GroupingFacts.

Context {X V : Type}.
Variable key : X -> string.
Variable init : string -> V.
Variable upd : X -> V -> V.

Lemma value_snoc (k : string) (l : list X) (x : X) :
  Group.value key init upd k (l ++ [x])
  = if String.eqb (key x) k then upd x (Group.value key init upd k l)
    else Group.value key init upd k l.
Proof.
  unfold Group.value. rewrite filter_app. simpl.
  destruct (String.eqb (key x) k); [|now rewrite app_nil_r].
  now rewrite fold_left_app.
Qed.

Lemma keys_In (l : list X) (k : string) :
  In k (Group.keys key l)
  <-> Obj.inherited k = false /\ exists x, In x l /\ key x = k.
Proof.
  unfold Group.keys.
  rewrite filter_In, first_seen_In, in_map_iff, negb_true_iff.
  split.
  - intros [(x & Hk & Hx) Hi]. split; [exact Hi|]. now exists x.
  - intros [Hi (x & Hx & Hk)]. split; [|exact Hi]. now exists x.
Qed.

Lemma keys_NoDup (l : list X) : NoDup (Group.keys key l).
Proof. apply NoDup_filter, first_seen_NoDup. Qed.

Lemma keys_snoc (l : list X) (x : X) :
  Group.keys key (l ++ [x])
  = if in_dec string_dec (key x) (Group.keys key l) then Group.keys key l
    else if Obj.inherited (key x) then Group.keys key l
    else Group.keys key l ++ [key x].
Proof.
  unfold Group.keys. rewrite map_app. simpl. rewrite first_seen_snoc.
  destruct (in_dec string_dec (key x) (map key l)) as [Hin|Hout].
  - destruct (in_dec string_dec (key x) _) as [_|Hno]; [reflexivity|].
    destruct (Obj.inherited (key x)) eqn:E; [reflexivity|].
    exfalso. apply Hno. rewrite filter_In, first_seen_In, E. auto.
  - destruct (in_dec string_dec (key x) _) as [Hyes|_].
    + rewrite filter_In, first_seen_In in Hyes. tauto.
    + rewrite filter_app. simpl.
      destruct (Obj.inherited (key x)); simpl;
        [now rewrite app_nil_r|reflexivity].
Qed.

(** The dictionary built by the loop: one own property per key that is not
    an inherited name, in first-seen order, holding the accumulated entry. *)
Lemma group_fold (l : list X) :
  fold_left (Group.step key init upd) l []
  = map (fun k => (k, Group.value key init upd k l)) (Group.keys key l).
Proof.
  induction l as [|x l IH] using rev_ind; [reflexivity|].
  rewrite fold_left_app. simpl. rewrite IH. clear IH.
  unfold Group.step, Obj.missing.
  rewrite keys_snoc.
  destruct (in_dec string_dec (key x) (Group.keys key l)) as [Hin|Hout].
  - rewrite (get_own_present _ _ _ Hin), update_map.
    apply map_ext. intro k. now rewrite value_snoc, String.eqb_sym.
  - rewrite (get_own_absent _ _ _ Hout).
    destruct (Obj.inherited (key x)) eqn:E; simpl.
    + rewrite update_map. apply map_ext_in. intros k Hk.
      rewrite value_snoc, String.eqb_sym.
      destruct (String.eqb_spec (key x) k) as [<-|_]; [contradiction|].
      reflexivity.
    + rewrite set_fresh by (now apply get_own_absent).
      change [(key x, init (key x))]
        with (map (fun k => (k, Group.value key init upd k l)) []
              ++ [(key x, init (key x))]).
      unfold Obj.update. rewrite !map_app, map_map. simpl.
      rewrite String.eqb_refl, value_snoc, String.eqb_refl.
      f_equal.
      * apply map_ext_in. intros k Hk. simpl.
        rewrite value_snoc, String.eqb_sym.
        destruct (String.eqb_spec (key x) k) as [<-|_]; [contradiction|].
        reflexivity.
      * unfold Group.value.
        replace (filter (fun y => String.eqb (key y) (key x)) l)
          with (@nil X); [reflexivity|].
        symmetry. apply (proj2 (filter_nil_iff _ l)).
        intros y Hy. apply String.eqb_neq. intro Heq.
        apply Hout, keys_In. split; [exact E|]. now exists y.
Qed.

End GroupingFacts.

(** ** Enumeration order of [Object.values] *)

Section Enumeration.

Context {V : Type}.

Lemma insert_index_perm (n : N) (v : V) (l : list (N * V)) :
  Permutation (Obj.insert_index n v l) ((n, v) :: l).
Proof.
  induction l as [|[m w] l IH]; simpl; [apply Permutation_refl|].
  destruct (n <? m)%N; [apply Permutation_refl|].
  rewrite IH. apply perm_swap.
Qed.

Lemma insert_index_sorted (n : N) (v : V) (l : list (N * V)) :
  StronglySorted Obj.index_order l ->
  StronglySorted Obj.index_order (Obj.insert_index n v l).
Proof.
  induction 1 as [|[m w] l Hl IH Hall]; simpl.
  - repeat constructor.
  - destruct (N.ltb_spec n m) as [Hlt|Hge].
    + constructor; [now constructor|].
      constructor; [unfold Obj.index_order; simpl; lia|].
      eapply Forall_impl; [|exact Hall].
      intros [p u]; unfold Obj.index_order; simpl; lia.
    + constructor; [exact IH|].
      rewrite (insert_index_perm n v l).
      constructor; [exact Hge|exact Hall].
Qed.

Lemma index_properties_sorted (o : Obj.object V) :
  StronglySorted Obj.index_order (Obj.index_properties o).
Proof.
  induction o as [|[k v] o IH]; simpl; [constructor|].
  destruct (Obj.array_index k); [now apply insert_index_sorted|exact IH].
Qed.

Lemma index_properties_perm (o : Obj.object V) :
  Permutation (map snd (Obj.index_properties o))
    (map snd (filter (fun kv => Obj.is_index (fst kv)) o)).
Proof.
  induction o as [|[k v] o IH]; simpl; [constructor|].
  unfold Obj.is_index.
  destruct (Obj.array_index k) as [n|]; simpl; [|exact IH].
  rewrite (Permutation_map snd (insert_index_perm n v _)). simpl.
  now constructor.
Qed.

Lemma index_properties_origin (o : Obj.object V) :
  Forall (fun nv => exists k,
              In (k, snd nv) o /\ Obj.array_index k = Some (fst nv))
    (Obj.index_properties o).
Proof.
  induction o as [|[k v] o IH]; simpl; [constructor|].
  assert (Hweak : Forall (fun nv => exists k',
                      ((k, v) = (k', snd nv) \/ In (k', snd nv) o)
                      /\ Obj.array_index k' = Some (fst nv))
                    (Obj.index_properties o)).
  { eapply Forall_impl; [|exact IH].
    intros nv (k' & Hin & Hk'). exists k'. auto. }
  destruct (Obj.array_index k) as [n|] eqn:E; [|exact Hweak].
  rewrite (insert_index_perm n v _).
  constructor; [|exact Hweak].
  exists k. simpl. auto.
Qed.

Lemma named_properties_map (g : string -> V) (ks : list string) :
  Obj.named_properties (map (fun k => (k, g k)) ks)
  = map (fun k => (k, g k)) (filter (fun k => negb (Obj.is_index k)) ks).
Proof. unfold Obj.named_properties. now rewrite filter_map_swap. Qed.

End Enumeration.

Lemma StronglySorted_map_in {A B : Type} (R : A -> A -> Prop)
  (S : B -> B -> Prop) (f : A -> B) (l : list A) :
  (forall a b, In a l -> In b l -> R a b -> S (f a) (f b)) ->
  StronglySorted R l -> StronglySorted S (map f l).
Proof.
  intros H Hs. induction Hs as [|a l Hl IH Hall]; simpl; constructor.
  - apply IH. intros x y Hx Hy. apply H; now right.
  - rewrite Forall_forall in *. intros y Hy.
    apply in_map_iff in Hy as (x & <- & Hx).
    apply H; [now left|now right|auto].
Qed.

Lemma filter_partition_perm {A : Type} (p : A -> bool) (l : list A) :
  Permutation (filter p l ++ filter (fun x => negb (p x)) l) l.
Proof.
  induction l as [|a l IH]; simpl; [constructor|].
  destruct (p a); simpl.
  - now constructor.
  - rewrite <- Permutation_middle. now constructor.
Qed.

Lemma fold_left_pair {A B C : Type} (f : A -> C -> A) (g : B -> C -> B)
  (l : list C) (a : A) (b : B) :
  fold_left (fun st x => (f (fst st) x, g (snd st) x)) l (a, b)
  = (fold_left f l a, fold_left g l b).
Proof.
  revert a b. induction l as [|x l IH]; intros a b; simpl; [reflexivity|].
  apply IH.
Qed.

(** ** Revenue by channel *)

Lemma channelData_value (tz : Z -> Z) (filtered : list Booking) :
  snd (chartData tz filtered)
  = map (fun k => (k, channel_entry filtered k))
      (Group.keys channel (confirmedBookings filtered)).
Proof.
  unfold chartData, forEach_step. rewrite fold_left_pair. simpl.
  apply (group_fold channel (fun k => Channel.mk k zero)
           (fun b => add_revenue (amount b))).
Qed.

Lemma fold_add_revenue (l : list Booking) (k : string) (q : Q) :
  fold_left (fun v b => add_revenue (amount b) v) l (Channel.mk k (JS.Fin q))
  = Channel.mk k (JS.Fin (fold_left (fun acc b => acc + Value.amount b)%Q l q)).
Proof.
  revert q. induction l as [|b l IH]; intro q; simpl; [reflexivity|].
  unfold add_revenue at 2. simpl. rewrite amount_value. simpl. apply IH.
Qed.

Lemma filter_filter_and {A : Type} (p q : A -> bool) (l : list A) :
  filter q (filter p l) = filter (fun x => p x && q x) l.
Proof.
  induction l as [|a l IH]; simpl; [reflexivity|].
  destruct (p a); simpl; [|exact IH].
  destruct (q a); now rewrite IH.
Qed.

Lemma channel_entry_value (filtered : list Booking) (k : string) :
  exists q,
    channel_entry filtered k = Channel.mk k (JS.Fin q)
    /\ (q == Spec.channel_revenue k filtered)%Q.
Proof.
  unfold channel_entry, Group.value, zero.
  rewrite fold_add_revenue. eexists. split; [reflexivity|].
  rewrite fold_left_sumQ. unfold Spec.channel_revenue, confirmedBookings.
  rewrite filter_filter_and. unfold Spec.confirmed. ring.
Qed.

Lemma channel_entry_name (filtered : list Booking) (k : string) :
  Channel.name (channel_entry filtered k) = k.
Proof.
  destruct (channel_entry_value filtered k) as (q & -> & _). reflexivity.
Qed.

Lemma map_fixed {A : Type} (f : A -> A) (l : list A) :
  (forall x, f x = x) -> map f l = l.
Proof.
  intro H. induction l as [|a l IH]; simpl; [reflexivity|].
  now rewrite H, IH.
Qed.

Lemma revenueByChannel_value (tz : Z -> Z) (filtered : list Booking) :
  revenueByChannel tz filtered
  = map snd (Obj.index_properties
               (map (fun k => (k, channel_entry filtered k))
                  (Group.keys channel (confirmedBookings filtered))))
    ++ map (channel_entry filtered)
         (filter (fun k => negb (Obj.is_index k))
            (Group.keys channel (confirmedBookings filtered))).
Proof.
  unfold revenueByChannel, Obj.values.
  rewrite channelData_value, named_properties_map, map_map. reflexivity.
Qed.

(** The labels of the series, whatever the channels are: the array-index
    labels by ascending index, then the others in first-seen order; a label
    inherited from [Object.prototype] gets no entry. *)
Lemma revenueByChannel_names (tz : Z -> Z) (filtered : list Booking) :
  exists idx,
    map Channel.name (revenueByChannel tz filtered)
    = idx ++ filter (fun k => negb (Obj.is_index k))
               (Group.keys channel (confirmedBookings filtered))
    /\ Permutation idx
         (filter Obj.is_index
            (Group.keys channel (confirmedBookings filtered)))
    /\ StronglySorted Spec.index_le idx.
Proof.
  set (ks := Group.keys channel (confirmedBookings filtered)).
  set (o := map (fun k => (k, channel_entry filtered k)) ks).
  exists (map (fun nv => Channel.name (snd nv)) (Obj.index_properties o)).
  split; [|split].
  - rewrite revenueByChannel_value. fold ks; fold o.
    rewrite map_app, !map_map. f_equal.
    apply map_fixed. intro k. apply channel_entry_name.
  - rewrite <- (map_map snd Channel.name).
    rewrite (Permutation_map Channel.name (index_properties_perm o)).
    unfold o. rewrite filter_map_swap, !map_map. simpl.
    rewrite map_fixed; [apply Permutation_refl|].
    intro k. apply channel_entry_name.
  - assert (Horigin : forall nv, In nv (Obj.index_properties o) ->
                        Obj.array_index (Channel.name (snd nv))
                        = Some (fst nv)).
    { intros nv Hnv.
      pose proof (index_properties_origin o) as Hall.
      rewrite Forall_forall in Hall.
      destruct (Hall nv Hnv) as (k & Hin & Hk).
      unfold o in Hin. apply in_map_iff in Hin as (k' & Heq & _).
      injection Heq as <- <-. now rewrite channel_entry_name. }
    apply (StronglySorted_map_in Obj.index_order);
      [|apply index_properties_sorted].
    intros a b Ha Hb Hab.
    exists (fst a), (fst b). auto.
Qed.

Lemma keys_not_inherited {X : Type} (key : X -> string) (l : list X) :
  (forall x, In x l -> Obj.inherited (key x) = false) ->
  Group.keys key l = Spec.first_seen (map key l).
Proof.
  intro H. unfold Group.keys.
  apply forallb_filter_id, forallb_forall.
  intros k Hk. apply first_seen_In, in_map_iff in Hk as (x & <- & Hx).
  now rewrite H.
Qed.

(** C6, counterexample: with the channels "Airbnb" and then "7", the entry
    of "7" comes first. *)
Lemma channels_not_in_first_seen_order :
  map Channel.name
    (revenueByChannel Sample.utc [Sample.booking1; Sample.channel_seven])
  = ["7"; "Airbnb"]%string
  /\ Spec.first_seen_channels [Sample.booking1; Sample.channel_seven]
     = ["Airbnb"; "7"]%string
  /\ map Channel.name
       (revenueByChannel Sample.utc [Sample.booking1; Sample.channel_seven])
     <> Spec.first_seen_channels [Sample.booking1; Sample.channel_seven].
Proof.
  split; [reflexivity|]. split; [reflexivity|].
  vm_compute. discriminate.
Qed.

(** C6, as the code has it: when no channel label of a confirmed booking
    is a property name inherited from [Object.prototype], [revenueByChannel]
    has exactly one entry per distinct label of the confirmed bookings (a
    missing or empty label counting as "Unknown"), its revenue being the sum
    of the amounts of the confirmed bookings with that label; the entries
    whose label is an array index come first, by ascending index, and the
    others follow in first-seen order - so the whole series is in first-seen
    order when no label is an array index. *)
Theorem revenueByChannel_series (tz : Z -> Z) (filtered : list Booking) :
  (forall b, In b filtered -> Spec.confirmed b = true ->
             Obj.inherited (channel b) = false) ->
  (exists idx,
      map Channel.name (revenueByChannel tz filtered)
      = idx ++ filter (fun s => negb (Obj.is_index s))
                 (Spec.first_seen_channels filtered)
      /\ Permutation idx
           (filter Obj.is_index (Spec.first_seen_channels filtered))
      /\ StronglySorted Spec.index_le idx)
  /\ NoDup (map Channel.name (revenueByChannel tz filtered))
  /\ (forall s,
        In s (map Channel.name (revenueByChannel tz filtered))
        <-> exists b, In b filtered /\ Spec.confirmed b = true
                      /\ channel b = s)
  /\ (forall e,
        In e (revenueByChannel tz filtered) ->
        exists q,
          Channel.revenue e = JS.Fin q
          /\ (q == Spec.channel_revenue (Channel.name e) filtered)%Q)
  /\ ((forall s, In s (Spec.first_seen_channels filtered) ->
                 Obj.is_index s = false) ->
      map Channel.name (revenueByChannel tz filtered)
      = Spec.first_seen_channels filtered).
Proof.
  intro Hown.
  assert (Hkeys : Group.keys channel (confirmedBookings filtered)
                  = Spec.first_seen_channels filtered).
  { apply keys_not_inherited. intros b Hb.
    apply filter_In in Hb as [Hin Hc]. now apply Hown. }
  destruct (revenueByChannel_names tz filtered) as (idx & Hnames & Hperm & Hs).
  rewrite Hkeys in Hnames, Hperm.
  assert (Hall : Permutation (map Channel.name (revenueByChannel tz filtered))
                   (Spec.first_seen_channels filtered)).
  { rewrite Hnames, Hperm. apply filter_partition_perm. }
  split; [now exists idx|].
  split; [|split; [|split]].
  - apply (Permutation_NoDup (Permutation_sym Hall)), first_seen_NoDup.
  - intro s. split.
    + intro Hin. apply (Permutation_in _ Hall) in Hin.
      apply first_seen_In, in_map_iff in Hin as (b & Hb & Hin).
      apply filter_In in Hin as [Hin Hc]. now exists b.
    + intros (b & Hin & Hc & Hb).
      apply (Permutation_in _ (Permutation_sym Hall)).
      apply first_seen_In, in_map_iff. exists b. split; [exact Hb|].
      apply filter_In. auto.
  - intros e He. rewrite revenueByChannel_value in He.
    assert (Hentry : exists k, e = channel_entry filtered k).
    { apply in_app_or in He as [He|He].
      - apply in_map_iff in He as ([n v] & <- & Hnv).
        pose proof (index_properties_origin
                      (map (fun k => (k, channel_entry filtered k))
                         (Group.keys channel (confirmedBookings filtered))))
          as Horigin.
        rewrite Forall_forall in Horigin.
        destruct (Horigin _ Hnv) as (k & Hk & _).
        apply in_map_iff in Hk as (k' & Heq & _).
        injection Heq as _ <-. now exists k'.
      - apply in_map_iff in He as (k & <- & _). now exists k. }
    destruct Hentry as (k & ->).
    destruct (channel_entry_value filtered k) as (q & Hq & Hsum).
    exists q. rewrite Hq. simpl. auto.
  - intro Hnamed. rewrite Hnames.
    assert (Hnone : filter Obj.is_index (Spec.first_seen_channels filtered)
                    = []).
    { apply filter_nil_iff. exact Hnamed. }
    rewrite Hnone in Hperm. apply Permutation_sym, Permutation_nil in Hperm.
    subst idx. simpl.
    apply forallb_filter_id, forallb_forall.
    intros s Hin. now rewrite Hnamed.
Qed.

Lemma revenueByChannel_series_witness :
  (forall b, In b [Sample.booking1; Sample.channel_seven; Sample.booking2] ->
             Spec.confirmed b = true -> Obj.inherited (channel b) = false)
  /\ NoDup (map Channel.name
              (revenueByChannel Sample.utc
                 [Sample.booking1; Sample.channel_seven; Sample.booking2]))
  /\ ((forall s, In s (Spec.first_seen_channels [Sample.booking1; Sample.booking2]) ->
                 Obj.is_index s = false)
      /\ map Channel.name
           (revenueByChannel Sample.utc [Sample.booking1; Sample.booking2])
         = Spec.first_seen_channels [Sample.booking1; Sample.booking2]).
Proof.
  assert (H3 : forall b,
             In b [Sample.booking1; Sample.channel_seven; Sample.booking2] ->
             Spec.confirmed b = true -> Obj.inherited (channel b) = false).
  { intros b [<-|[<-|[<-|[]]]] _; reflexivity. }
  assert (H2 : forall b,
             In b [Sample.booking1; Sample.booking2] ->
             Spec.confirmed b = true -> Obj.inherited (channel b) = false).
  { intros b [<-|[<-|[]]] _; reflexivity. }
  assert (Hnamed : forall s,
             In s (Spec.first_seen_channels [Sample.booking1; Sample.booking2]) ->
             Obj.is_index s = false).
  { intros s [<-|[<-|[]]]; reflexivity. }
  split; [exact H3|].
  split.
  - exact (proj1 (proj2 (revenueByChannel_series Sample.utc _ H3))).
  - split; [exact Hnamed|].
    exact (proj2 (proj2 (proj2 (proj2
             (revenueByChannel_series Sample.utc _ H2)))) Hnamed).
Defined.

(** ** Bookings by month *)

Lemma getMonth_valid (tz : Z -> Z) (d : JS.Date) : Series.valid_month (getMonth tz d).
Proof. intros z Hz. now apply (getMonth_range tz d). Qed.

Lemma valid_month_cases (m : option Z) :
  Series.valid_month m ->
  In m [None; Some 0; Some 1; Some 2; Some 3; Some 4; Some 5; Some 6;
        Some 7; Some 8; Some 9; Some 10; Some 11].
Proof.
  intro H. destruct m as [z|]; [|now left].
  specialize (H z eq_refl).
  assert (Hz : z = 0 \/ z = 1 \/ z = 2 \/ z = 3 \/ z = 4 \/ z = 5 \/ z = 6
               \/ z = 7 \/ z = 8 \/ z = 9 \/ z = 10 \/ z = 11) by lia.
  simpl. repeat (destruct Hz as [->|Hz]; [tauto|]). subst. tauto.
Qed.

Lemma month_of_key_month_key (m : option Z) :
  Series.valid_month m -> month_of_key (month_key m) = m.
Proof.
  intro H. apply valid_month_cases in H. simpl in H.
  repeat (destruct H as [<-|H]; [reflexivity|]). contradiction.
Qed.

Lemma month_key_own (m : option Z) :
  Series.valid_month m -> Obj.inherited (month_key m) = false.
Proof.
  intro H. apply valid_month_cases in H. simpl in H.
  repeat (destruct H as [<-|H]; [reflexivity|]). contradiction.
Qed.

Lemma month_key_eqb (m1 m2 : option Z) :
  Series.valid_month m1 -> Series.valid_month m2 ->
  String.eqb (month_key m1) (month_key m2) = Series.same_month m1 m2.
Proof.
  intros H1 H2.
  destruct (String.eqb_spec (month_key m1) (month_key m2)) as [E|E].
  - apply (f_equal month_of_key) in E.
    rewrite !month_of_key_month_key in E by assumption. subst m2.
    destruct m1 as [z|]; simpl; [now rewrite Z.eqb_refl|reflexivity].
  - destruct m1 as [x|], m2 as [y|]; simpl; try reflexivity.
    + destruct (Z.eqb_spec x y) as [->|_]; [contradiction|reflexivity].
    + contradiction.
Qed.

Lemma monthly_step_group (tz : Z -> Z) (o : Obj.object Month.entry)
  (b : Booking) :
  monthly_step tz o b
  = Group.step (monthly_key tz) monthly_init (fun _ => count_booking) o b.
Proof.
  unfold monthly_step, Group.step, monthly_key, monthly_init.
  now rewrite month_of_key_month_key by apply getMonth_valid.
Qed.

Lemma monthlyData_value (tz : Z -> Z) (filtered : list Booking) :
  fst (chartData tz filtered)
  = map (fun k => (k, monthly_entry tz filtered k))
      (Spec.first_seen (map (monthly_key tz) (confirmedBookings filtered))).
Proof.
  unfold chartData, forEach_step. rewrite fold_left_pair. simpl.
  rewrite (fold_left_ext_eq _ _ _ _ (monthly_step_group tz)), group_fold.
  rewrite keys_not_inherited; [reflexivity|].
  intros b _. apply month_key_own, getMonth_valid.
Qed.

Lemma fold_count_booking (l : list Booking) (nm : option string)
  (m : option Z) (c : Z) :
  fold_left (fun v _ => count_booking v) l (Month.mk nm m c)
  = Month.mk nm m (c + Z.of_nat (List.length l)).
Proof.
  revert c. induction l as [|b l IH]; intro c; simpl fold_left.
  - f_equal. simpl. lia.
  - unfold count_booking at 2. simpl Month.name. simpl Month.monthIndex.
    simpl Month.bookings. rewrite IH. f_equal. simpl List.length. lia.
Qed.

Lemma monthly_entry_value (tz : Z -> Z) (filtered : list Booking)
  (b : Booking) :
  monthly_entry tz filtered (monthly_key tz b)
  = Series.month_entry tz filtered (getMonth tz (arrival b)).
Proof.
  unfold monthly_entry, Group.value, monthly_init, Series.month_entry.
  rewrite fold_count_booking. unfold monthly_key.
  rewrite !month_of_key_month_key by apply getMonth_valid.
  rewrite Z.add_0_l. do 2 f_equal.
  unfold Series.month_count, confirmedBookings.
  rewrite filter_filter_and. f_equal. apply filter_ext.
  intro x. unfold Spec.confirmed. f_equal.
  apply month_key_eqb; apply getMonth_valid.
Qed.

Lemma monthly_entry_index (tz : Z -> Z) (filtered : list Booking)
  (k : string) :
  Month.monthIndex (monthly_entry tz filtered k) = month_of_key k.
Proof.
  unfold monthly_entry, Group.value, monthly_init.
  now rewrite fold_count_booking.
Qed.

Lemma sort_sorted (l : list Month.entry) :
  StronglySorted Series.month_before l -> Arr.sort by_monthIndex l = l.
Proof.
  induction 1 as [|a l Hl IH Hall]; [reflexivity|].
  change (Arr.sort by_monthIndex (a :: l))
    with (Arr.sort_insert by_monthIndex a (Arr.sort by_monthIndex l)).
  rewrite IH.
  destruct l as [|y l']; [reflexivity|]. simpl.
  apply Forall_inv in Hall.
  unfold Series.month_before in Hall. unfold by_monthIndex.
  destruct (Month.monthIndex a) as [x|], (Month.monthIndex y) as [z|];
    simpl; try reflexivity.
  destruct (Z.ltb_spec 0 (x - z)); [lia|reflexivity].
Qed.

Lemma StronglySorted_app {A : Type} (R : A -> A -> Prop) (l1 l2 : list A) :
  StronglySorted R l1 -> StronglySorted R l2 ->
  (forall a b, In a l1 -> In b l2 -> R a b) ->
  StronglySorted R (l1 ++ l2).
Proof.
  intros H1 H2 H. induction H1 as [|a l Hl IH Hall]; simpl; [exact H2|].
  constructor.
  - apply IH. intros x y Hx Hy. apply H; [now right|exact Hy].
  - apply Forall_app. split; [exact Hall|].
    apply Forall_forall. intros y Hy. apply H; [now left|exact Hy].
Qed.

Lemma StronglySorted_strict {A : Type} (f : A -> N) (l : list A) :
  StronglySorted (fun a b => f a <= f b)%N l -> NoDup (map f l) ->
  StronglySorted (fun a b => f a < f b)%N l.
Proof.
  induction 1 as [|a l Hl IH Hall]; simpl; intro Hnd; constructor.
  - apply IH. now inversion Hnd.
  - inversion Hnd as [|? ? Hnotin _]; subst.
    rewrite Forall_forall in *. intros y Hy.
    specialize (Hall y Hy).
    assert (f a <> f y) by (intro E; apply Hnotin; rewrite E; now apply in_map).
    lia.
Qed.

Lemma NoDup_singleton_or_nil {A : Type} (l : list A) (a : A) :
  NoDup l -> (forall x, In x l -> x = a) -> l = [] \/ l = [a].
Proof.
  intros Hnd H. destruct l as [|x l]; [now left|right].
  assert (x = a) by (apply H; now left). subst x.
  destruct l as [|y l]; [reflexivity|].
  assert (y = a) by (apply H; right; now left). subst y.
  inversion Hnd as [|? ? Hnotin _]. exfalso. apply Hnotin. now left.
Qed.

Section IndexEnumeration.

Context {V : Type}.

Lemma index_properties_indexed (o : Obj.object V) :
  Permutation (Obj.index_properties o) (Obj.indexed o).
Proof.
  induction o as [|[k v] o IH]; simpl; [constructor|].
  destruct (Obj.array_index k) as [n|]; simpl; [|exact IH].
  rewrite insert_index_perm. now constructor.
Qed.

Lemma indexed_In (g : string -> V) (ks : list string) (n : N) :
  In n (map fst (Obj.indexed (map (fun k => (k, g k)) ks)))
  -> exists k, In k ks /\ Obj.array_index k = Some n.
Proof.
  induction ks as [|a ks IH]; simpl; [contradiction|].
  rewrite map_app, in_app_iff. intros [H|H].
  - destruct (Obj.array_index a) as [m|] eqn:E; simpl in H; [|contradiction].
    destruct H as [<-|[]]. exists a. auto.
  - destruct (IH H) as (k & Hk & Hn). exists k. auto.
Qed.

Lemma indexed_NoDup (g : string -> V) (ks : list string) :
  NoDup ks ->
  (forall k1 k2 n, In k1 ks -> In k2 ks ->
     Obj.array_index k1 = Some n -> Obj.array_index k2 = Some n -> k1 = k2) ->
  NoDup (map fst (Obj.indexed (map (fun k => (k, g k)) ks))).
Proof.
  induction 1 as [|a ks Hnotin Hnd IH]; simpl; intro Hinj; [constructor|].
  assert (Hrest : NoDup (map fst (Obj.indexed (map (fun k => (k, g k)) ks)))).
  { apply IH. intros k1 k2 n H1 H2. apply Hinj; now right. }
  rewrite map_app.
  destruct (Obj.array_index a) as [n|] eqn:E; simpl; [|exact Hrest].
  constructor; [|exact Hrest].
  intro Hin. apply indexed_In in Hin as (k & Hk & Hn).
  assert (a = k).
  { apply (Hinj a k n); [now left|now right|exact E|exact Hn]. }
  subst k. contradiction.
Qed.

Lemma values_perm (o : Obj.object V) : Permutation (Obj.values o) (map snd o).
Proof.
  unfold Obj.values, Obj.named_properties.
  rewrite index_properties_perm, <- map_app.
  apply Permutation_map.
  apply (filter_partition_perm (fun kv => Obj.is_index (fst kv))).
Qed.

End IndexEnumeration.

Section MonthSeries.

Variable tz : Z -> Z.
Variable filtered : list Booking.

Local Abbreviation ks :=
  (Spec.first_seen (map (monthly_key tz) (confirmedBookings filtered))).

Local Abbreviation monthlyData :=
  (map (fun k => (k, monthly_entry tz filtered k)) ks).

Lemma monthly_keys_origin (k : string) :
  In k ks ->
  exists b, In b filtered /\ Spec.confirmed b = true /\ k = monthly_key tz b.
Proof.
  intro H. apply first_seen_In, in_map_iff in H as (b & <- & Hb).
  apply filter_In in Hb as [Hin Hc]. now exists b.
Qed.

Lemma monthly_keys_month (k : string) :
  In k ks -> month_key (month_of_key k) = k.
Proof.
  intro H. destruct (monthly_keys_origin k H) as (b & _ & _ & ->).
  unfold monthly_key.
  now rewrite month_of_key_month_key by apply getMonth_valid.
Qed.

Lemma monthly_keys_injective (k1 k2 : string) (n : N) :
  In k1 ks -> In k2 ks ->
  Obj.array_index k1 = Some n -> Obj.array_index k2 = Some n -> k1 = k2.
Proof.
  intros H1 H2 E1 E2.
  rewrite <- (monthly_keys_month k1 H1), <- (monthly_keys_month k2 H2).
  unfold month_of_key. now rewrite E1, E2.
Qed.

Lemma monthly_keys_named (k : string) :
  In k ks -> Obj.is_index k = false -> k = "NaN"%string.
Proof.
  intros H Hnamed. rewrite <- (monthly_keys_month k H).
  unfold month_of_key, Obj.is_index in *.
  now destruct (Obj.array_index k).
Qed.

Lemma index_entry_month (nv : N * Month.entry) :
  In nv (Obj.index_properties monthlyData) ->
  Month.monthIndex (snd nv) = Some (Z.of_N (fst nv)).
Proof.
  intro H.
  pose proof (index_properties_origin monthlyData) as Hall.
  rewrite Forall_forall in Hall.
  destruct (Hall nv H) as (k & Hin & Hk).
  apply in_map_iff in Hin as (k' & Heq & _).
  injection Heq as <- <-.
  rewrite monthly_entry_index. unfold month_of_key. now rewrite Hk.
Qed.

Lemma monthly_values_sorted :
  StronglySorted Series.month_before (Obj.values monthlyData).
Proof.
  unfold Obj.values.
  rewrite named_properties_map, map_map. simpl.
  apply StronglySorted_app.
  - apply (StronglySorted_map_in (fun a b => fst a < fst b)%N).
    + intros a b Ha Hb Hlt. unfold Series.month_before.
      rewrite (index_entry_month a Ha), (index_entry_month b Hb). lia.
    + apply StronglySorted_strict; [apply index_properties_sorted|].
      apply (Permutation_NoDup
               (Permutation_map fst
                  (Permutation_sym (index_properties_indexed monthlyData)))).
      apply indexed_NoDup; [apply first_seen_NoDup|].
      apply monthly_keys_injective.
  - destruct (NoDup_singleton_or_nil
                (filter (fun k => negb (Obj.is_index k)) ks) "NaN"%string)
      as [-> | ->].
    + apply NoDup_filter, first_seen_NoDup.
    + intros k Hk. apply filter_In in Hk as [Hin Hnamed].
      apply negb_true_iff in Hnamed. now apply monthly_keys_named.
    + constructor.
    + repeat constructor.
  - intros a b Ha Hb.
    apply in_map_iff in Ha as (nv & <- & Hnv).
    apply in_map_iff in Hb as (k & <- & Hk).
    apply filter_In in Hk as [Hin Hnamed]. apply negb_true_iff in Hnamed.
    unfold Series.month_before.
    rewrite (index_entry_month nv Hnv), monthly_entry_index.
    rewrite (monthly_keys_named k Hin Hnamed). exact I.
Qed.

Lemma bookingsByMonth_value :
  bookingsByMonth tz filtered = Obj.values monthlyData.
Proof.
  unfold bookingsByMonth. rewrite monthlyData_value.
  apply sort_sorted, monthly_values_sorted.
Qed.

Lemma bookingsByMonth_In (e : Month.entry) :
  In e (bookingsByMonth tz filtered)
  <-> exists b,
        In b filtered /\ Spec.confirmed b = true
        /\ e = Series.month_entry tz filtered (getMonth tz (arrival b)).
Proof.
  rewrite bookingsByMonth_value.
  split.
  - intro H. apply (Permutation_in _ (values_perm monthlyData)) in H.
    rewrite map_map in H. simpl in H.
    apply in_map_iff in H as (k & <- & Hk).
    destruct (monthly_keys_origin k Hk) as (b & Hin & Hc & ->).
    exists b. now rewrite monthly_entry_value.
  - intros (b & Hin & Hc & ->).
    apply (Permutation_in _ (Permutation_sym (values_perm monthlyData))).
    rewrite map_map. simpl.
    apply in_map_iff. exists (monthly_key tz b).
    split; [apply monthly_entry_value|].
    apply first_seen_In, in_map. apply filter_In. auto.
Qed.

End MonthSeries.

Lemma month_count_positive (tz : Z -> Z) (filtered : list Booking)
  (b : Booking) :
  In b filtered -> Spec.confirmed b = true ->
  (0 < Series.month_count tz filtered (getMonth tz (arrival b)))%nat.
Proof.
  intros Hin Hc. unfold Series.month_count.
  assert (Hb : In b (filter (fun x => Spec.confirmed x
                       && Series.same_month (getMonth tz (arrival x))
                            (getMonth tz (arrival b))) filtered)).
  { apply filter_In. split; [exact Hin|]. rewrite Hc. simpl.
    destruct (getMonth tz (arrival b)); simpl;
      [apply Z.eqb_refl|reflexivity]. }
  destruct (filter _ filtered); [contradiction|simpl; lia].
Qed.

Lemma monthName_valid (m : Z) :
  0 <= m < 12 ->
  exists nm, monthName (Some m) = Some nm
             /\ nth_error monthNames (Z.to_nat m) = Some nm.
Proof.
  intro H. unfold monthName.
  destruct (Z.ltb_spec m 0); [lia|].
  assert (Hlt : (Z.to_nat m < List.length monthNames)%nat) by (simpl; lia).
  apply nth_error_Some in Hlt.
  destruct (nth_error monthNames (Z.to_nat m)) as [nm|]; [|contradiction].
  now exists nm.
Qed.

(** The month series on any input: the entries are in strictly ascending
    month order (an entry without month index, if any, last); there is one
    entry for the month of every confirmed booking, carrying the number of
    confirmed bookings of that month, hence no entry for a month without
    confirmed arrival; and when every confirmed arrival is a date, every
    entry is that of a month 0-11 with its name. *)
Theorem bookingsByMonth_series (tz : Z -> Z) (filtered : list Booking) :
  StronglySorted Series.month_before (bookingsByMonth tz filtered)
  /\ (forall e,
        In e (bookingsByMonth tz filtered)
        <-> exists b,
              In b filtered /\ Spec.confirmed b = true
              /\ e = Series.month_entry tz filtered (getMonth tz (arrival b)))
  /\ Forall (fun e => 0 < Month.bookings e) (bookingsByMonth tz filtered)
  /\ ((forall b, In b filtered -> Spec.confirmed b = true ->
                 arrival b <> None) ->
      Forall (fun e => exists m nm,
                  0 <= m < 12 /\ Month.monthIndex e = Some m
                  /\ Month.name e = Some nm
                  /\ nth_error monthNames (Z.to_nat m) = Some nm)
        (bookingsByMonth tz filtered)).
Proof.
  split; [|split; [|split]].
  - rewrite bookingsByMonth_value. apply monthly_values_sorted.
  - apply bookingsByMonth_In.
  - apply Forall_forall. intros e He.
    apply bookingsByMonth_In in He as (b & Hin & Hc & ->). simpl.
    pose proof (month_count_positive tz filtered b Hin Hc). lia.
  - intro Hdated. apply Forall_forall. intros e He.
    apply bookingsByMonth_In in He as (b & Hin & Hc & ->).
    destruct (arrival b) as [t|] eqn:E; [|now apply Hdated in Hin].
    simpl getMonth.
    pose proof (MonthFromTime_range (t + tz t)) as Hrange.
    destruct (monthName_valid _ Hrange) as (nm & Hnm & Hnth).
    exists (JS.MonthFromTime (t + tz t)), nm. simpl. auto.
Qed.

(** C7, the failing input: a confirmed booking whose arrival is not a date
    gets an entry of its own, with no month index (NaN) and no name
    (undefined). *)
Theorem bookingsByMonth_unparseable_arrival (tz : Z -> Z) :
  bookingsByMonth tz [Sample.undated] = [Month.mk None None 1]
  /\ bookingsByMonth Sample.utc
       [Sample.booking1; Sample.undated; Sample.booking2]
     = [Month.mk (Some "Jan"%string) (Some 0) 1;
        Month.mk (Some "Feb"%string) (Some 1) 1;
        Month.mk None None 1].
Proof. split; reflexivity. Qed.

(** ** The specification's examples *)

(** The two January and February bookings of the sample data. *)
Example two_bookings :
  exists r,
    aggregate Sample.utc [Sample.booking1; Sample.booking2] = JS.Ok r
    /\ JS.num_eq (ProcessedData.totalRevenue r) (JS.Fin 1150)
    /\ ProcessedData.totalBookings r = 2%nat
    /\ JS.num_eq (ProcessedData.totalNights r) (JS.Fin 10)
    /\ JS.num_eq (ProcessedData.avgNightlyRate r) (JS.Fin 115).
Proof.
  eexists. split; [apply aggregate_value|]. vm_compute. tauto.
Qed.

Example single_cancelled :
  exists r,
    aggregate Sample.utc [Sample.booking4] = JS.Ok r
    /\ ProcessedData.totalBookings r = 0%nat
    /\ ProcessedData.avgBookingValue r = zero
    /\ JS.num_eq (ProcessedData.cancellationRate r) (JS.Fin 100).
Proof.
  eexists. split; [apply aggregate_value|]. vm_compute. tauto.
Qed.

Example february_only :
  filteredBookings [Sample.booking1; Sample.booking2]
    (Some (Sample.date 2024 2 1)) (Some (Sample.date 2024 2 28))
  = [Sample.booking2].
Proof. reflexivity. Qed.

(** A label that every object inherits gets no entry at all. *)
Example inherited_label_has_no_entry :
  revenueByChannel Sample.utc [Sample.booking1; Sample.channel_constructor]
  = [Channel.mk "Airbnb" (JS.Fin (0 + inject_Z 500))].
Proof. reflexivity. Qed.

(** Both series of the record are the ones characterised above. *)
Lemma aggregate_series (tz : Z -> Z) (filtered : list Booking) :
  exists r,
    aggregate tz filtered = JS.Ok r
    /\ ProcessedData.bookingsByMonth r = bookingsByMonth tz filtered
    /\ ProcessedData.revenueByChannel r = revenueByChannel tz filtered
    /\ ProcessedData.filteredBookings r = filtered.
Proof. eexists. split; [apply aggregate_value|]. auto. Qed.

(** * Further properties of the dashboard *)

(** ** Composition of the date bounds *)

(** X1: filtering with both bounds is filtering with the start bound and
    then with the end bound, in either order. *)
Theorem filter_bounds_compose (allBookings : list Booking)
  (s e : JS.Date) :
  filteredBookings allBookings (Some s) (Some e)
  = filteredBookings (filteredBookings allBookings (Some s) None)
      None (Some e)
  /\ filteredBookings allBookings (Some s) (Some e)
     = filteredBookings (filteredBookings allBookings None (Some e))
         (Some s) None.
Proof.
  unfold filteredBookings. rewrite !filter_filter_and.
  split; apply filter_ext; intro b; simpl; [reflexivity|apply andb_comm].
Qed.

Lemma in_range_closed (ts te : Z) (b : Booking) :
  in_range (Some (Some ts)) (Some (Some te)) b = true
  <-> exists t, arrival b = Some t /\ ts <= t <= te.
Proof.
  unfold in_range.
  rewrite andb_true_iff, ge_getTime, le_getTime.
  split.
  - intros [H1 H2]. destruct (arrival b) as [t|]; [|inversion H1].
    exists t. split; [reflexivity|].
    inversion H1; subst. inversion H2; subst. lia.
  - intros (t & -> & H). split; constructor; lia.
Qed.

(** X2: when the two bounds are not two dates with the start on or before
    the end (one of them does not parse, or the range is inverted), nothing
    passes the filter and the dashboard shows the all-zero record. *)
Theorem inverted_range_selects_nothing (tz : Z -> Z)
  (allBookings : list Booking) (s e : JS.Date) :
  (forall ts te, s = Some ts -> e = Some te -> te < ts) ->
  filteredBookings allBookings (Some s) (Some e) = []
  /\ processedData tz allBookings (Some s) (Some e) = JS.Ok Table.nothing.
Proof.
  intro Hbad.
  assert (Hnone : filteredBookings allBookings (Some s) (Some e) = []).
  { apply filter_nil_iff. intros b _.
    apply not_true_iff_false. intro Hin.
    unfold in_range in Hin.
    rewrite andb_true_iff, ge_getTime, le_getTime in Hin.
    destruct Hin as [H1 H2].
    destruct (arrival b) as [t|]; [|inversion H1].
    destruct s as [ts|]; [|inversion H1].
    destruct e as [te|]; [|inversion H2].
    inversion H1; subst. inversion H2; subst.
    specialize (Hbad ts te eq_refl eq_refl). lia. }
  split; [exact Hnone|].
  unfold processedData. rewrite Hnone. reflexivity.
Qed.

Lemma inverted_range_selects_nothing_witness :
  (forall ts te,
      Sample.date 2024 3 1 = Some ts -> Sample.date 2024 2 1 = Some te ->
      te < ts)
  /\ processedData Sample.utc Sample.MOCK_BOOKINGS
       (Some (Sample.date 2024 3 1)) (Some (Sample.date 2024 2 1))
     = JS.Ok Table.nothing.
Proof.
  assert (H : forall ts te,
             Sample.date 2024 3 1 = Some ts ->
             Sample.date 2024 2 1 = Some te -> te < ts).
  { intros ts te [= <-] [= <-]. reflexivity. }
  split; [exact H|].
  exact (proj2 (inverted_range_selects_nothing Sample.utc
                  Sample.MOCK_BOOKINGS _ _ H)).
Defined.

(** X3: narrowing the range of an already filtered set gives the same
    bookings as filtering all bookings with the narrower range. *)
Theorem filter_narrowing (allBookings : list Booking) (ts te ts' te' : Z) :
  ts <= ts' -> te' <= te ->
  filteredBookings
    (filteredBookings allBookings (Some (Some ts)) (Some (Some te)))
    (Some (Some ts')) (Some (Some te'))
  = filteredBookings allBookings (Some (Some ts')) (Some (Some te')).
Proof.
  intros Hs He. unfold filteredBookings. rewrite filter_filter_and.
  apply filter_ext. intro b.
  destruct (in_range (Some (Some ts')) (Some (Some te')) b) eqn:E.
  - rewrite andb_true_r. apply in_range_closed.
    apply in_range_closed in E as (t & Ht & Hin).
    exists t. split; [exact Ht|lia].
  - apply andb_false_r.
Qed.

Lemma filter_narrowing_witness :
  JS.UTC 2024 1 1 <= JS.UTC 2024 2 1
  /\ JS.UTC 2024 2 28 <= JS.UTC 2024 12 31
  /\ filteredBookings
       (filteredBookings Sample.MOCK_BOOKINGS
          (Some (Sample.date 2024 1 1)) (Some (Sample.date 2024 12 31)))
       (Some (Sample.date 2024 2 1)) (Some (Sample.date 2024 2 28))
     = [Sample.booking2; Sample.booking3].
Proof.
  assert (H1 : JS.UTC 2024 1 1 <= JS.UTC 2024 2 1) by (vm_compute; discriminate).
  assert (H2 : JS.UTC 2024 2 28 <= JS.UTC 2024 12 31)
    by (vm_compute; discriminate).
  split; [exact H1|]. split; [exact H2|].
  exact (eq_trans (filter_narrowing Sample.MOCK_BOOKINGS _ _ _ _ H1 H2)
           eq_refl).
Defined.

(** ** Records that are not confirmed *)

Lemma confirmedBookings_without (before after : list Booking) (b : Booking) :
  status b <> "Booked"%string ->
  confirmedBookings (before ++ b :: after)
  = confirmedBookings (before ++ after).
Proof.
  intro H. rewrite confirmedBookings_insert, confirmedBookings_app.
  unfold Spec.confirmed. apply String.eqb_neq in H. now rewrite H.
Qed.

(** X4: a record whose status is not "Booked" (cancelled or anything else)
    changes no figure but the cancellation rate: revenue, counts, nights,
    all four averages and both chart series are the same with and without
    it. *)
Theorem unconfirmed_record_is_inert (tz : Z -> Z)
  (before after : list Booking) (b : Booking) :
  status b <> "Booked"%string ->
  exists r r',
    aggregate tz (before ++ b :: after) = JS.Ok r
    /\ aggregate tz (before ++ after) = JS.Ok r'
    /\ ProcessedData.totalRevenue r = ProcessedData.totalRevenue r'
    /\ ProcessedData.totalBookings r = ProcessedData.totalBookings r'
    /\ ProcessedData.totalNights r = ProcessedData.totalNights r'
    /\ ProcessedData.avgBookingValue r = ProcessedData.avgBookingValue r'
    /\ ProcessedData.avgNightlyRate r = ProcessedData.avgNightlyRate r'
    /\ ProcessedData.avgLengthOfStay r = ProcessedData.avgLengthOfStay r'
    /\ ProcessedData.avgLeadTime r = ProcessedData.avgLeadTime r'
    /\ ProcessedData.bookingsByMonth r = ProcessedData.bookingsByMonth r'
    /\ ProcessedData.revenueByChannel r = ProcessedData.revenueByChannel r'.
Proof.
  intro H. pose proof (confirmedBookings_without before after b H) as Hc.
  eexists _, _.
  split; [apply aggregate_value|]. split; [apply aggregate_value|].
  cbn [ProcessedData.totalRevenue ProcessedData.totalBookings
       ProcessedData.totalNights ProcessedData.avgBookingValue
       ProcessedData.avgNightlyRate ProcessedData.avgLengthOfStay
       ProcessedData.avgLeadTime ProcessedData.bookingsByMonth
       ProcessedData.revenueByChannel].
  unfold Value.totalRevenue, Value.totalNights, Value.totalLeadTime,
    totalBookings, bookingsByMonth, revenueByChannel, chartData.
  rewrite Hc. repeat split.
Qed.

Lemma unconfirmed_record_is_inert_witness :
  status Sample.booking4 <> "Booked"%string
  /\ exists r r',
       aggregate Sample.utc Sample.MOCK_BOOKINGS = JS.Ok r
       /\ aggregate Sample.utc
            [Sample.booking1; Sample.booking2; Sample.booking3] = JS.Ok r'
       /\ ProcessedData.totalRevenue r = ProcessedData.totalRevenue r'
       /\ ProcessedData.avgLeadTime r = ProcessedData.avgLeadTime r'.
Proof.
  assert (H : status Sample.booking4 <> "Booked"%string) by discriminate.
  split; [exact H|].
  destruct (unconfirmed_record_is_inert Sample.utc
              [Sample.booking1; Sample.booking2; Sample.booking3] []
              Sample.booking4 H)
    as (r & r' & Hr & Hr' & Hrev & _ & _ & _ & _ & _ & Hlead & _).
  exists r, r'. auto.
Defined.

(** ** Grouping is a partition *)

Lemma flat_map_ext_in {A B : Type} (f g : A -> list B) (l : list A) :
  (forall a, In a l -> f a = g a) -> flat_map f l = flat_map g l.
Proof.
  induction l as [|a l IH]; simpl; intro H; [reflexivity|].
  rewrite (H a (or_introl eq_refl)), IH; [reflexivity|].
  intros x Hx. apply H. now right.
Qed.

Lemma group_partition {X : Type} (key : X -> string) (ks : list string)
  (l : list X) :
  NoDup ks ->
  Permutation
    (flat_map (fun k => filter (fun x => String.eqb (key x) k) l) ks)
    (filter (fun x => existsb (String.eqb (key x)) ks) l).
Proof.
  intro Hnd. induction l as [|x l IH]; simpl.
  - induction ks as [|k ks IHk]; simpl; [constructor|].
    apply IHk. now inversion Hnd.
  - destruct (existsb (String.eqb (key x)) ks) eqn:E.
    + apply existsb_exists in E as (k & Hk & Ek).
      apply String.eqb_eq in Ek. subst k.
      destruct (in_split _ _ Hk) as (ks1 & ks2 & ->).
      apply NoDup_remove_2 in Hnd as Hnotin.
      rewrite !flat_map_app in *. simpl in *.
      rewrite String.eqb_refl.
      rewrite (flat_map_ext_in
                 (fun k => if String.eqb (key x) k
                           then x :: filter (fun x0 => String.eqb (key x0) k) l
                           else filter (fun x0 => String.eqb (key x0) k) l)
                 (fun k => filter (fun x0 => String.eqb (key x0) k) l) ks1).
      2:{ intros k Hin. destruct (String.eqb_spec (key x) k) as [<-|_];
            [|reflexivity].
          exfalso. apply Hnotin, in_or_app. now left. }
      rewrite (flat_map_ext_in
                 (fun k => if String.eqb (key x) k
                           then x :: filter (fun x0 => String.eqb (key x0) k) l
                           else filter (fun x0 => String.eqb (key x0) k) l)
                 (fun k => filter (fun x0 => String.eqb (key x0) k) l) ks2).
      2:{ intros k Hin. destruct (String.eqb_spec (key x) k) as [<-|_];
            [|reflexivity].
          exfalso. apply Hnotin, in_or_app. now right. }
      rewrite <- IH.
      apply Permutation_sym, Permutation_middle.
    + rewrite <- IH. erewrite flat_map_ext_in; [apply Permutation_refl|].
      intros k Hin. simpl.
      destruct (String.eqb_spec (key x) k) as [<-|_]; [|reflexivity].
      exfalso. apply not_true_iff_false in E. apply E.
      apply existsb_exists. exists (key x). split; [exact Hin|].
      apply String.eqb_refl.
Qed.

Lemma group_partition_all {X : Type} (key : X -> string) (l : list X) :
  Permutation
    (flat_map (fun k => filter (fun x => String.eqb (key x) k) l)
       (Spec.first_seen (map key l)))
    l.
Proof.
  rewrite (group_partition key _ l (first_seen_NoDup _)).
  rewrite forallb_filter_id; [apply Permutation_refl|].
  apply forallb_forall. intros x Hx. apply existsb_exists.
  exists (key x). split; [|apply String.eqb_refl].
  apply first_seen_In. now apply in_map.
Qed.

Lemma length_flat_map {A B : Type} (f : A -> list B) (l : list A) :
  Z.of_nat (List.length (flat_map f l))
  = Table.sumZ (map (fun a => Z.of_nat (List.length (f a))) l).
Proof.
  induction l as [|a l IH]; simpl; [reflexivity|].
  rewrite length_app, <- IH. lia.
Qed.

Lemma sumZ_perm (l l' : list Z) :
  Permutation l l' -> Table.sumZ l = Table.sumZ l'.
Proof.
  induction 1; simpl; lia.
Qed.

Lemma monthly_entry_bookings (tz : Z -> Z) (filtered : list Booking)
  (k : string) :
  Month.bookings (monthly_entry tz filtered k)
  = Z.of_nat (List.length
                (filter (fun b => String.eqb (monthly_key tz b) k)
                   (confirmedBookings filtered))).
Proof.
  unfold monthly_entry, Group.value, monthly_init.
  now rewrite fold_count_booking.
Qed.

(** X5: the counts of the month series add up to [totalBookings]: every
    confirmed booking is counted in exactly one entry (the one without
    month when its arrival is not a date). *)
Theorem bookingsByMonth_counts_total (tz : Z -> Z)
  (filtered : list Booking) :
  Table.sumZ (map Month.bookings (bookingsByMonth tz filtered))
  = Z.of_nat (totalBookings filtered).
Proof.
  rewrite bookingsByMonth_value.
  rewrite (sumZ_perm _ _ (Permutation_map Month.bookings (values_perm _))).
  rewrite !map_map. simpl.
  erewrite map_ext; [|intro k; apply monthly_entry_bookings].
  rewrite <- (length_flat_map
                (fun k => filter (fun b => String.eqb (monthly_key tz b) k)
                            (confirmedBookings filtered))).
  unfold totalBookings. f_equal.
  apply Permutation_length, group_partition_all.
Qed.

(** ** Totals of the channel series *)

Lemma sumQ_perm (l l' : list Q) :
  Permutation l l' -> (Spec.sumQ l == Spec.sumQ l')%Q.
Proof.
  induction 1 as [| x l l' _ IH | x y l | l l' l'' _ IH1 _ IH2]; simpl.
  - reflexivity.
  - now rewrite IH.
  - ring.
  - now rewrite IH1.
Qed.

Lemma sumQ_flat_map {A : Type} (w : A -> Q) (g : string -> list A)
  (ks : list string) :
  (Spec.sumQ (map (fun k => Spec.sumQ (map w (g k))) ks)
   == Spec.sumQ (map w (flat_map g ks)))%Q.
Proof.
  induction ks as [|k ks IH]; simpl; [reflexivity|].
  now rewrite map_app, sumQ_app, IH.
Qed.

Lemma sumQ_pointwise {A : Type} (f g : A -> Q) (l : list A) :
  (forall a, f a == g a)%Q ->
  (Spec.sumQ (map f l) == Spec.sumQ (map g l))%Q.
Proof.
  intro H. induction l as [|a l IH]; simpl; [reflexivity|].
  now rewrite H, IH.
Qed.

Lemma channel_entry_revenue (filtered : list Booking) (k : string) :
  Channel.revenue (channel_entry filtered k)
  = JS.Fin (fold_left (fun acc b => acc + Value.amount b)%Q
              (filter (fun b => String.eqb (channel b) k)
                 (confirmedBookings filtered)) 0%Q).
Proof.
  unfold channel_entry, Group.value, zero.
  now rewrite fold_add_revenue.
Qed.

Lemma revenueByChannel_perm (tz : Z -> Z) (filtered : list Booking) :
  Permutation (revenueByChannel tz filtered)
    (map (channel_entry filtered)
       (Group.keys channel (confirmedBookings filtered))).
Proof.
  unfold revenueByChannel. rewrite channelData_value, values_perm, map_map.
  apply Permutation_refl.
Qed.

(** X6: in exact arithmetic the revenues of the channel series add up to
    [totalRevenue], provided no confirmed booking has a channel label
    inherited from [Object.prototype] (such a booking is in the total but in
    no entry). *)
Theorem revenueByChannel_revenue_total (tz : Z -> Z)
  (filtered : list Booking) :
  (forall b, In b filtered -> Spec.confirmed b = true ->
             Obj.inherited (channel b) = false) ->
  exists qs R,
    map Channel.revenue (revenueByChannel tz filtered) = map JS.Fin qs
    /\ totalRevenue filtered = JS.Fin R
    /\ (Spec.sumQ qs == R)%Q.
Proof.
  intro Hown.
  exists (map (fun e => Table.rational (Channel.revenue e))
            (revenueByChannel tz filtered)),
    (Value.totalRevenue filtered).
  pose proof (revenueByChannel_perm tz filtered) as Hperm.
  split; [|split; [apply totalRevenue_value|]].
  - rewrite map_map. apply map_ext_in. intros e He.
    apply (Permutation_in _ Hperm), in_map_iff in He as (k & <- & _).
    now rewrite channel_entry_revenue.
  - rewrite (sumQ_perm _ _ (Permutation_map _ Hperm)), map_map.
    rewrite keys_not_inherited.
    2:{ intros b Hb. apply filter_In in Hb as [Hin Hc]. now apply Hown. }
    rewrite (sumQ_pointwise _
               (fun k => Spec.sumQ
                           (map Value.amount
                              (filter (fun b => String.eqb (channel b) k)
                                 (confirmedBookings filtered))))).
    2:{ intro k. rewrite channel_entry_revenue. simpl.
        rewrite fold_left_sumQ. ring. }
    rewrite (sumQ_flat_map Value.amount
               (fun k => filter (fun b => String.eqb (channel b) k)
                           (confirmedBookings filtered))).
    rewrite (sumQ_perm _ _ (Permutation_map Value.amount
                              (group_partition_all channel _))).
    symmetry. apply totalRevenue_sum.
Qed.

Lemma revenueByChannel_revenue_total_witness :
  (forall b, In b Sample.MOCK_BOOKINGS -> Spec.confirmed b = true ->
             Obj.inherited (channel b) = false)
  /\ exists qs,
       map Channel.revenue (revenueByChannel Sample.utc Sample.MOCK_BOOKINGS)
       = map JS.Fin qs
       /\ (Spec.sumQ qs == 1700)%Q.
Proof.
  assert (H : forall b, In b Sample.MOCK_BOOKINGS ->
                        Spec.confirmed b = true ->
                        Obj.inherited (channel b) = false).
  { intros b [<-|[<-|[<-|[<-|[]]]]] _; reflexivity. }
  split; [exact H|].
  destruct (revenueByChannel_revenue_total Sample.utc _ H)
    as (qs & R & Hqs & HR & Hsum).
  exists qs. split; [exact Hqs|].
  rewrite Hsum. rewrite totalRevenue_value in HR. injection HR as <-.
  vm_compute. reflexivity.
Defined.

(** ** Signs *)

Lemma lead_contribution_nonneg (b : Booking) :
  (0 <= Spec.lead_contribution b)%Q.
Proof.
  unfold Spec.lead_contribution.
  destruct (creation_date b) as [created|]; [|apply Qle_refl].
  destruct (arrival b) as [a|], created as [c|]; try apply Qle_refl.
  apply Q.le_max_r.
Qed.

Lemma average_nonneg (total : Q) (n : nat) :
  (0 <= total)%Q -> (0 <= Value.average total n)%Q.
Proof.
  intro H. unfold Value.average.
  destruct (Nat.ltb_spec 0 n) as [Hn|_]; [|apply Qle_refl].
  apply Qle_shift_div_l.
  - change 0%Q with (inject_Z 0). rewrite <- Zlt_Qlt. lia.
  - now rewrite Qmult_0_l.
Qed.

(** X7: the lead-time sum and [avgLeadTime] are never negative, whatever the
    dates: a booking created after its arrival adds 0, not a negative
    number. *)
Theorem lead_time_never_negative (tz : Z -> Z) (filtered : list Booking) :
  exists r total avg,
    aggregate tz filtered = JS.Ok r
    /\ totalLeadTime filtered = JS.Ok (JS.Fin total)
    /\ ProcessedData.avgLeadTime r = JS.Fin avg
    /\ (0 <= total)%Q /\ (0 <= avg)%Q.
Proof.
  eexists _, _, _.
  split; [apply aggregate_value|]. split; [apply totalLeadTime_value|].
  split; [reflexivity|].
  assert (H : (0 <= Value.totalLeadTime filtered)%Q).
  { rewrite totalLeadTime_sum. apply sumQ_nonneg.
    apply Forall_forall. intros q Hq.
    apply in_map_iff in Hq as (b & <- & _). apply lead_contribution_nonneg. }
  split; [exact H|now apply average_nonneg].
Qed.




(** ** Size of the series *)

Lemma first_seen_length (l : list string) :
  (List.length (Spec.first_seen l) <= List.length l)%nat.
Proof.
  apply NoDup_incl_length; [apply first_seen_NoDup|].
  intros k Hk. now apply first_seen_In.
Qed.

Lemma bookingsByMonth_length (tz : Z -> Z) (filtered : list Booking) :
  List.length (bookingsByMonth tz filtered)
  = List.length
      (Spec.first_seen (map (monthly_key tz) (confirmedBookings filtered))).
Proof.
  rewrite bookingsByMonth_value.
  rewrite (Permutation_length (values_perm _)). now rewrite !length_map.
Qed.

(** X9: the month series never has more than thirteen entries (twelve
    months and the entry without month), at most twelve when every confirmed
    arrival is a date, and neither series has more entries than there are
    confirmed bookings. *)
Theorem series_sizes (tz : Z -> Z) (filtered : list Booking) :
  (List.length (bookingsByMonth tz filtered) <= 13)%nat
  /\ (List.length (bookingsByMonth tz filtered) <= totalBookings filtered)%nat
  /\ (List.length (revenueByChannel tz filtered)
      <= totalBookings filtered)%nat
  /\ ((forall b, In b filtered -> Spec.confirmed b = true ->
                 arrival b <> None) ->
      (List.length (bookingsByMonth tz filtered) <= 12)%nat).
Proof.
  rewrite bookingsByMonth_length.
  split; [|split; [|split]].
  - change 13%nat
      with (List.length
              (map month_key
                 [None; Some 0; Some 1; Some 2; Some 3; Some 4; Some 5;
                  Some 6; Some 7; Some 8; Some 9; Some 10; Some 11])).
    apply NoDup_incl_length; [apply first_seen_NoDup|].
    intros k Hk. apply first_seen_In, in_map_iff in Hk as (b & <- & _).
    unfold monthly_key. apply in_map, valid_month_cases, getMonth_valid.
  - unfold totalBookings.
    rewrite <- (length_map (monthly_key tz) (confirmedBookings filtered)).
    apply first_seen_length.
  - rewrite (Permutation_length (revenueByChannel_perm tz filtered)).
    rewrite length_map. unfold Group.keys, totalBookings.
    rewrite <- (length_map channel (confirmedBookings filtered)).
    etransitivity; [apply filter_length_bound|apply first_seen_length].
  - intro Hdated.
    change 12%nat
      with (List.length
              (map month_key
                 [Some 0; Some 1; Some 2; Some 3; Some 4; Some 5;
                  Some 6; Some 7; Some 8; Some 9; Some 10; Some 11])).
    apply NoDup_incl_length; [apply first_seen_NoDup|].
    intros k Hk. apply first_seen_In, in_map_iff in Hk as (b & <- & Hb).
    apply filter_In in Hb as [Hin Hc]. unfold monthly_key. apply in_map.
    pose proof (valid_month_cases _ (getMonth_valid tz (arrival b))) as Hm.
    destruct Hm as [Hnone|Hm]; [|exact Hm].
    exfalso. apply (Hdated b Hin Hc).
    destruct (arrival b); [discriminate|reflexivity].
Qed.

Lemma series_sizes_witness :
  (forall b, In b Sample.MOCK_BOOKINGS -> Spec.confirmed b = true ->
             arrival b <> None)
  /\ (List.length (bookingsByMonth Sample.utc Sample.MOCK_BOOKINGS)
      <= 12)%nat.
Proof.
  assert (H : forall b, In b Sample.MOCK_BOOKINGS ->
                        Spec.confirmed b = true -> arrival b <> None).
  { intros b [<-|[<-|[<-|[<-|[]]]]] _; discriminate. }
  split; [exact H|].
  exact (proj2 (proj2 (proj2 (series_sizes Sample.utc _))) H).
Defined.

(** ** Extremes of the cancellation rate *)

Lemma filter_length_all {A : Type} (p : A -> bool) (l : list A) :
  List.length (filter p l) = List.length l <-> forallb p l = true.
Proof.
  induction l as [|a l IH]; simpl; [tauto|].
  destruct (p a); simpl.
  - rewrite <- IH. split; lia.
  - pose proof (filter_length_bound p l). split; [lia|discriminate].
Qed.

Lemma filter_length_none {A : Type} (p : A -> bool) (l : list A) :
  List.length (filter p l) = 0%nat <-> forallb (fun a => negb (p a)) l = true.
Proof.
  induction l as [|a l IH]; simpl; [tauto|].
  destruct (p a); simpl; [split; [lia|discriminate]|exact IH].
Qed.

Lemma percentage_full (c n : nat) :
  (0 < n)%nat ->
  (inject_Z (Z.of_nat c) / inject_Z (Z.of_nat n) * 100 == 100)%Q <-> c = n.
Proof.
  intro Hn.
  assert (Hnz : ~ (inject_Z (Z.of_nat n) == 0)%Q).
  { unfold Qeq. simpl. lia. }
  split.
  - intro H.
    assert (H1 : (inject_Z (Z.of_nat c) / inject_Z (Z.of_nat n) == 1)%Q).
    { revert H. generalize (inject_Z (Z.of_nat c) / inject_Z (Z.of_nat n))%Q.
      intros x H. lra. }
    assert (H2 : (inject_Z (Z.of_nat c) == inject_Z (Z.of_nat n))%Q).
    { rewrite <- (Qmult_div_r (inject_Z (Z.of_nat c)) _ Hnz), H1. ring. }
    unfold Qeq in H2. simpl in H2. lia.
  - intros ->. field. exact Hnz.
Qed.

Lemma percentage_null (c n : nat) :
  (0 < n)%nat ->
  (inject_Z (Z.of_nat c) / inject_Z (Z.of_nat n) * 100 == 0)%Q <-> c = 0%nat.
Proof.
  intro Hn.
  assert (Hnz : ~ (inject_Z (Z.of_nat n) == 0)%Q).
  { unfold Qeq. simpl. lia. }
  split.
  - intro H.
    assert (H1 : (inject_Z (Z.of_nat c) / inject_Z (Z.of_nat n) == 0)%Q).
    { revert H. generalize (inject_Z (Z.of_nat c) / inject_Z (Z.of_nat n))%Q.
      intros x H. lra. }
    assert (H2 : (inject_Z (Z.of_nat c) == 0)%Q).
    { rewrite <- (Qmult_div_r (inject_Z (Z.of_nat c)) _ Hnz), H1. ring. }
    unfold Qeq in H2. simpl in H2. lia.
  - intros ->. field. exact Hnz.
Qed.

(** X10: the cancellation rate is 100 exactly when the filtered set is not
    empty and every record of it is cancelled, and 0 exactly when no record
    is cancelled. *)
Theorem cancellationRate_extremes (tz : Z -> Z) (filtered : list Booking) :
  exists r rate,
    aggregate tz filtered = JS.Ok r
    /\ ProcessedData.cancellationRate r = JS.Fin rate
    /\ ((rate == 100)%Q
        <-> filtered <> []
            /\ forall b, In b filtered -> status b = "Cancelled"%string)
    /\ ((rate == 0)%Q
        <-> forall b, In b filtered -> status b <> "Cancelled"%string).
Proof.
  eexists _, _. split; [apply aggregate_value|].
  cbn [ProcessedData.cancellationRate]. split; [reflexivity|].
  unfold Value.cancellationRate.
  destruct filtered as [|b0 l]; [|set (fb := b0 :: l)].
  - simpl. split; split.
    + discriminate.
    + intros [H _]. now contradiction H.
    + contradiction.
    + reflexivity.
  - assert (Hn : (0 < List.length fb)%nat) by (simpl; lia).
    apply Nat.ltb_lt in Hn as Hb. rewrite Hb.
    split.
    + rewrite (percentage_full _ _ Hn). unfold cancelledBookings.
      rewrite filter_length_all, forallb_forall.
      split.
      * intro H. split; [discriminate|].
        intros b Hin. now apply String.eqb_eq, H.
      * intros [_ H] b Hin. now apply String.eqb_eq, H.
    + rewrite (percentage_null _ _ Hn). unfold cancelledBookings.
      rewrite filter_length_none, forallb_forall.
      split.
      * intros H b Hin. apply String.eqb_neq, negb_true_iff. now apply H.
      * intros H b Hin. apply negb_true_iff, String.eqb_neq. now apply H.
Qed.

(** ** The rows of the bookings table *)








(** ** The question form *)

Lemma simplify_value (b : Booking) :
  exists n,
    simplify b
    = JS.Ok (Simplified.mk (arrival b) (departure b) n (total_amount b)
               (source b) (status b) (creation_date b))
    /\ nights b = JS.Ok n.
Proof.
  unfold simplify, nights.
  change (1000 * 60 * 60 * 24) with (1000 * 3600 * 24).
  rewrite div_by_msPerDay. eexists. split; reflexivity.
Qed.

Lemma simplifiedData_value (filtered : list Booking) :
  exists data,
    simplifiedData filtered = JS.Ok data
    /\ Forall2 (fun b s =>
                  nights b = JS.Ok (Simplified.nights s)
                  /\ Simplified.status s = status b
                  /\ Simplified.arrival s = arrival b
                  /\ Simplified.departure s = departure b
                  /\ Simplified.total_amount s = total_amount b
                  /\ Simplified.source s = source b
                  /\ Simplified.creation_date s = creation_date b)
         filtered data.
Proof.
  unfold simplifiedData.
  induction filtered as [|b l (data & Hdata & Hall)]; simpl.
  - exists []. split; [reflexivity|constructor].
  - destruct (simplify_value b) as (n & Hs & Hn).
    rewrite Hs, Hdata. simpl. eexists. split; [reflexivity|].
    constructor; [|exact Hall]. simpl. auto 10.
Qed.

Lemma confirmed_nights_sum (filtered : list Booking)
  (data : list Simplified.t) :
  Forall2 (fun b s => nights b = JS.Ok (Simplified.nights s)
                      /\ Simplified.status s = status b) filtered data ->
  (Spec.sumQ (map Value.nights (confirmedBookings filtered))
   == Spec.sumQ
        (map (fun s => Table.rational (JS.or (Simplified.nights s) zero))
           (filter (fun s => String.eqb (Simplified.status s) "Booked")
              data)))%Q.
Proof.
  induction 1 as [|b s l data [Hn Hst] _ IH]; simpl; [reflexivity|].
  rewrite Hst. destruct (String.eqb (status b) "Booked"); [|exact IH].
  simpl. rewrite IH.
  pose proof (nights_or_zero_value b) as Hv.
  unfold nights_or_zero in Hv. rewrite Hn in Hv. simpl in Hv.
  injection Hv as ->. reflexivity.
Qed.

(** X12: the item list sent with a question never fails to be built, has
    one item per filtered booking in the same order (cancelled ones
    included) with the booking's fields copied, and its [nights] are the
    nights of the dashboard: summed over the confirmed items, with a NaN
    counted as 0, they give [totalNights]. *)
Theorem simplifiedData_nights (filtered : list Booking) :
  exists data N,
    simplifiedData filtered = JS.Ok data
    /\ map Simplified.status data = map status filtered
    /\ map Simplified.arrival data = map arrival filtered
    /\ map Simplified.total_amount data = map total_amount filtered
    /\ totalNights filtered = JS.Ok (JS.Fin N)
    /\ (N == Spec.sumQ
               (map (fun s =>
                       Table.rational (JS.or (Simplified.nights s) zero))
                  (filter (fun s =>
                             String.eqb (Simplified.status s) "Booked")
                     data)))%Q.
Proof.
  destruct (simplifiedData_value filtered) as (data & Hdata & Hall).
  exists data, (Value.totalNights filtered).
  split; [exact Hdata|].
  assert (Hmaps : map Simplified.status data = map status filtered
                  /\ map Simplified.arrival data = map arrival filtered
                  /\ map Simplified.total_amount data
                     = map total_amount filtered).
  { clear Hdata. induction Hall as [|b s l d H _ IH]; simpl; [auto|].
    destruct H as (_ & -> & -> & _ & -> & _).
    destruct IH as (-> & -> & ->). auto. }
  destruct Hmaps as (H1 & H2 & H3).
  split; [exact H1|]. split; [exact H2|]. split; [exact H3|].
  split; [apply totalNights_value|].
  rewrite totalNights_sum. apply confirmed_nights_sum.
  eapply Forall2_impl; [|exact Hall]. simpl. tauto.
Qed.

(** X13: a question is sent exactly when it is not empty and at least one
    booking passed the date filter; the empty question is reported first;
    and a range that selects nothing (an inverted one, say) is always
    answered with the "no booking data" message, whatever is asked. *)
Theorem handleAskAI_guards (question : string) (allBookings : list Booking)
  (startDate endDate : option JS.Date) :
  (question = ""%string ->
   handleAskAI question (filteredBookings allBookings startDate endDate)
   = JS.Ok (InsightsError "Please enter a question."))
  /\ (question <> ""%string ->
      filteredBookings allBookings startDate endDate = [] ->
      handleAskAI question (filteredBookings allBookings startDate endDate)
      = JS.Ok (InsightsError
          "No booking data available in the selected date range to analyze."))
  /\ (question <> ""%string ->
      filteredBookings allBookings startDate endDate <> [] ->
      exists data,
        simplifiedData (filteredBookings allBookings startDate endDate)
        = JS.Ok data
        /\ handleAskAI question
             (filteredBookings allBookings startDate endDate)
           = JS.Ok (Request data question)
        /\ List.length data
           = List.length (filteredBookings allBookings startDate endDate))
  /\ (question <> ""%string ->
      forall s e,
        startDate = Some s -> endDate = Some e ->
        (forall ts te, s = Some ts -> e = Some te -> te < ts) ->
        handleAskAI question (filteredBookings allBookings startDate endDate)
        = JS.Ok (InsightsError
            "No booking data available in the selected date range to analyze.")).
Proof.
  assert (Hempty : question <> ""%string ->
            filteredBookings allBookings startDate endDate = [] ->
            handleAskAI question
              (filteredBookings allBookings startDate endDate)
            = JS.Ok (InsightsError
                "No booking data available in the selected date range to analyze.")).
  { intros Hq Hnone. unfold handleAskAI.
    apply String.eqb_neq in Hq. rewrite Hq, Hnone. reflexivity. }
  split; [intros ->; reflexivity|].
  split; [exact Hempty|]. split.
  - intros Hq Hsome. unfold handleAskAI.
    apply String.eqb_neq in Hq. rewrite Hq.
    destruct (simplifiedData_value
                (filteredBookings allBookings startDate endDate))
      as (data & Hdata & Hall).
    exists data. split; [exact Hdata|].
    destruct (filteredBookings allBookings startDate endDate) eqn:E;
      [contradiction|].
    rewrite Hdata. split; [reflexivity|].
    symmetry. eapply Forall2_length. exact Hall.
  - intros Hq s e -> -> Hbad. apply Hempty; [exact Hq|].
    apply filter_nil_iff. intros b _.
    apply not_true_iff_false. intro Hin.
    unfold in_range in Hin.
    rewrite andb_true_iff, ge_getTime, le_getTime in Hin.
    destruct Hin as [H1 H2].
    destruct (arrival b) as [t|]; [|inversion H1].
    destruct s as [ts|]; [|inversion H1].
    destruct e as [te|]; [|inversion H2].
    inversion H1; subst. inversion H2; subst.
    specialize (Hbad ts te eq_refl eq_refl). lia.
Qed.

Lemma handleAskAI_guards_witness :
  ("How many bookings?"%string <> ""%string)
  /\ filteredBookings Sample.MOCK_BOOKINGS None None <> []
  /\ (exists data,
        handleAskAI "How many bookings?"
          (filteredBookings Sample.MOCK_BOOKINGS None None)
        = JS.Ok (Request data "How many bookings?")
        /\ List.length data = 4%nat)
  /\ handleAskAI "How many bookings?"
       (filteredBookings Sample.MOCK_BOOKINGS
          (Some (Sample.date 2024 3 1)) (Some (Sample.date 2024 2 1)))
     = JS.Ok (InsightsError
         "No booking data available in the selected date range to analyze.")
  /\ handleAskAI "" (filteredBookings Sample.MOCK_BOOKINGS None None)
     = JS.Ok (InsightsError "Please enter a question.").
Proof.
  assert (Hq : "How many bookings?"%string <> ""%string) by discriminate.
  assert (Hsome : filteredBookings Sample.MOCK_BOOKINGS None None <> [])
    by discriminate.
  pose proof (handleAskAI_guards "How many bookings?" Sample.MOCK_BOOKINGS
                None None) as (_ & _ & Hreq & _).
  pose proof (handleAskAI_guards "How many bookings?" Sample.MOCK_BOOKINGS
                (Some (Sample.date 2024 3 1)) (Some (Sample.date 2024 2 1)))
    as (_ & _ & _ & Hinv).
  pose proof (handleAskAI_guards "" Sample.MOCK_BOOKINGS None None)
    as (Hblank & _).
  split; [exact Hq|]. split; [exact Hsome|]. split; [|split].
  - destruct (Hreq Hq Hsome) as (data & _ & Hask & Hlen).
    exists data. split; [exact Hask|exact Hlen].
  - apply (Hinv Hq _ _ eq_refl eq_refl).
    intros ts te [= <-] [= <-]. reflexivity.
  - exact (Hblank eq_refl).
Defined.

(** ** Rendering of the answers *)

Local Arguments N.eqb : simpl never.

Lemma skipn_prefix {A : Type} (p r : list A) :
  skipn (List.length p) (p ++ r) = r.
Proof. induction p as [|x p IH]; [reflexivity|exact IH]. Qed.

Section Delimited.

Variables d o c : Md.text.

Lemma close_eq (l : Md.text) :
  Md.close d l
  = if Md.starts_with d l then Some ([], skipn (List.length d) l)
    else match l with
         | [] => None
         | x :: l' =>
             if Md.line_terminator x then None
             else match Md.close d l' with
                  | Some (content, rest) => Some (x :: content, rest)
                  | None => None
                  end
         end.
Proof. destruct l; reflexivity. Qed.

Lemma starts_with_prefix (l : Md.text) : Md.starts_with d (d ++ l) = true.
Proof.
  induction d as [|x d' IH]; simpl; [reflexivity|].
  now rewrite N.eqb_refl, IH.
Qed.

Lemma starts_with_split (l : Md.text) :
  Md.starts_with d l = true -> l = d ++ skipn (List.length d) l.
Proof.
  revert l. induction d as [|x d' IH]; intro l; simpl; [reflexivity|].
  destruct l as [|y l]; [discriminate|].
  intro H. apply andb_true_iff in H as [Hxy Hrest].
  apply N.eqb_eq in Hxy. subst y. f_equal. now apply IH.
Qed.

Lemma close_split (l content rest : Md.text) :
  Md.close d l = Some (content, rest) ->
  l = content ++ d ++ rest /\ Md.one_line content = true.
Proof.
  revert content rest. induction l as [|x l IH]; intros content rest;
    rewrite close_eq.
  - destruct (Md.starts_with d []) eqn:E; [|discriminate].
    intros [= <- <-]. split; [|reflexivity].
    now apply starts_with_split in E.
  - destruct (Md.starts_with d (x :: l)) eqn:E.
    + intros [= <- <-]. split; [|reflexivity].
      now apply starts_with_split in E.
    + destruct (Md.line_terminator x) eqn:Ex; [discriminate|].
      destruct (Md.close d l) as [[content' rest']|]; [|discriminate].
      intros [= <- <-]. destruct (IH _ _ eq_refl) as [-> Hone].
      split; [reflexivity|]. simpl. now rewrite Ex.
Qed.

Lemma replace_delimited_skip (p rest : Md.text) :
  Md.replace_delimited d o c (List.length p) (p ++ rest)
  = Md.replace_delimited d o c 0 rest.
Proof.
  induction p as [|x p IH]; [reflexivity|]. simpl. exact IH.
Qed.

End Delimited.

Lemma replace_delimited_match (x0 : N) (d' o c content rest : Md.text) :
  Md.close (x0 :: d') (content ++ (x0 :: d') ++ rest) = Some (content, rest) ->
  Md.replace_delimited (x0 :: d') o c 0
    ((x0 :: d') ++ content ++ (x0 :: d') ++ rest)
  = o ++ content ++ c ++ Md.replace_delimited (x0 :: d') o c 0 rest.
Proof.
  intro Hclose.
  change ((x0 :: d') ++ content ++ (x0 :: d') ++ rest)
    with (x0 :: (d' ++ content ++ (x0 :: d') ++ rest)).
  cbn [Md.replace_delimited].
  change (x0 :: (d' ++ content ++ (x0 :: d') ++ rest))
    with ((x0 :: d') ++ content ++ (x0 :: d') ++ rest).
  rewrite starts_with_prefix, skipn_prefix, Hclose.
  do 3 f_equal.
  replace (d' ++ content ++ (x0 :: d') ++ rest)
    with ((d' ++ content ++ (x0 :: d')) ++ rest)
    by (now rewrite <- !app_assoc).
  rewrite <- (replace_delimited_skip (x0 :: d') o c
                (d' ++ content ++ x0 :: d') rest).
  f_equal. rewrite !length_app. simpl. lia.
Qed.

(** A delimiter that begins with an asterisk, in a text without asterisk. *)
Section Starred.

Variables d' o c : Md.text.

Lemma starts_with_other (x : N) (l : Md.text) :
  x <> Md.star -> Md.starts_with (Md.star :: d') (x :: l) = false.
Proof.
  intro H. simpl.
  destruct (N.eqb_spec Md.star x) as [E|_]; [congruence|reflexivity].
Qed.

Lemma replace_delimited_plain (p rest : Md.text) :
  Md.has Md.star p = false ->
  Md.replace_delimited (Md.star :: d') o c 0 (p ++ rest)
  = p ++ Md.replace_delimited (Md.star :: d') o c 0 rest.
Proof.
  induction p as [|x p IH]; [reflexivity|].
  intro H. simpl in H. apply orb_false_iff in H as [Hx Hp].
  apply N.eqb_neq in Hx.
  change ((x :: p) ++ rest) with (x :: (p ++ rest)).
  cbn [Md.replace_delimited].
  rewrite starts_with_other by congruence.
  now rewrite IH.
Qed.

Lemma close_plain (x rest : Md.text) :
  Md.has Md.star x = false -> Md.one_line x = true ->
  Md.close (Md.star :: d') (x ++ (Md.star :: d') ++ rest) = Some (x, rest).
Proof.
  induction x as [|a x IH]; intros Hs Hl; rewrite close_eq.
  - rewrite app_nil_l.
    now rewrite starts_with_prefix, skipn_prefix.
  - simpl in Hs, Hl.
    apply orb_false_iff in Hs as [Ha Hs]. apply N.eqb_neq in Ha.
    apply andb_true_iff in Hl as [Hla Hl]. apply negb_true_iff in Hla.
    change ((a :: x) ++ (Md.star :: d') ++ rest)
      with (a :: (x ++ (Md.star :: d') ++ rest)).
    rewrite starts_with_other by congruence.
    now rewrite Hla, IH.
Qed.

(** One delimited span in a line without other asterisks. *)
Lemma replace_delimited_span (p x q : Md.text) :
  Md.has Md.star p = false -> Md.has Md.star x = false ->
  Md.has Md.star q = false -> Md.one_line x = true ->
  Md.replace_delimited (Md.star :: d') o c 0
    (p ++ (Md.star :: d') ++ x ++ (Md.star :: d') ++ q)
  = p ++ o ++ x ++ c ++ q.
Proof.
  intros Hp Hx Hq Hl.
  rewrite (replace_delimited_plain _ _ Hp).
  rewrite replace_delimited_match by (now apply close_plain).
  rewrite <- (app_nil_r q) at 1.
  rewrite (replace_delimited_plain _ _ Hq).
  cbn [Md.replace_delimited]. now rewrite app_nil_r.
Qed.

End Starred.

Lemma has_app (ch : N) (a b : Md.text) :
  Md.has ch (a ++ b) = Md.has ch a || Md.has ch b.
Proof. apply existsb_app. Qed.

Lemma one_line_app (a b : Md.text) :
  Md.one_line (a ++ b) = Md.one_line a && Md.one_line b.
Proof. apply forallb_app. Qed.

Lemma one_line_no_newline (t : Md.text) :
  Md.one_line t = true -> Md.has Md.newline t = false.
Proof.
  induction t as [|x t IH]; [reflexivity|]. simpl.
  intro H. apply andb_true_iff in H as [Hx Ht].
  rewrite (IH Ht), orb_false_r.
  apply N.eqb_neq. intros <-. discriminate.
Qed.

Lemma line_breaks_plain (t : Md.text) :
  Md.has Md.newline t = false -> Md.line_breaks t = t.
Proof.
  induction t as [|x t IH]; [reflexivity|]. simpl.
  intro H. apply orb_false_iff in H as [Hx Ht].
  unfold Md.line_breaks in *. simpl.
  rewrite N.eqb_sym in Hx. rewrite Hx. simpl. now rewrite IH.
Qed.

Lemma replace_items_inside (t : Md.text) :
  Md.one_line t = true -> Md.replace_items 0 false t = t.
Proof.
  induction t as [|x t IH]; [reflexivity|]. simpl Md.one_line.
  intro H. apply andb_true_iff in H as [Hx Ht]. apply negb_true_iff in Hx.
  cbn [Md.replace_items andb]. rewrite Hx. now rewrite IH.
Qed.

Lemma list_items_plain (t : Md.text) :
  Md.one_line t = true -> Md.starts_with (Md.lit "- ") t = false ->
  Md.list_items t = t.
Proof.
  unfold Md.list_items. destruct t as [|x t]; [reflexivity|].
  simpl Md.one_line. intros H Hs.
  apply andb_true_iff in H as [Hx Ht]. apply negb_true_iff in Hx.
  cbn [Md.replace_items]. rewrite Hs, andb_false_r, Hx.
  now rewrite replace_items_inside.
Qed.

Lemma replace_items_skip (st : bool) (t : Md.text) :
  Md.replace_items (List.length t) st t = [].
Proof.
  revert st. induction t as [|x t IH]; intro st; [reflexivity|].
  simpl. apply IH.
Qed.

Lemma line_one_line (t : Md.text) : Md.one_line t = true -> Md.line t = t.
Proof.
  induction t as [|x t IH]; [reflexivity|]. simpl.
  intro H. apply andb_true_iff in H as [Hx Ht]. apply negb_true_iff in Hx.
  now rewrite Hx, IH.
Qed.

Lemma starts_with_item_prefix (p r : Md.text) :
  Md.starts_with (Md.lit "- ") p = false ->
  Md.starts_with (Md.lit "- ") r = false ->
  (forall x, p = [x] -> Md.starts_with [32%N] r = false) ->
  Md.starts_with (Md.lit "- ") (p ++ r) = false.
Proof.
  intros Hp Hr Hone.
  destruct p as [|x [|y p]].
  - exact Hr.
  - specialize (Hone x eq_refl). simpl in *.
    destruct (45 =? x)%N; [|reflexivity]. simpl.
    destruct r as [|z r]; [reflexivity|]. simpl in Hone. exact Hone.
  - exact Hp.
Qed.

Lemma close_none (d' l : Md.text) :
  Md.has Md.star l = false -> Md.close (Md.star :: d') l = None.
Proof.
  induction l as [|x l IH]; [reflexivity|].
  intro H. simpl in H. apply orb_false_iff in H as [Hx Hl].
  apply N.eqb_neq in Hx.
  rewrite close_eq, starts_with_other by congruence.
  rewrite (IH Hl). now destruct (Md.line_terminator x).
Qed.

Lemma replace_items_no_hyphen (st : bool) (t : Md.text) :
  Md.has 45%N t = false -> Md.replace_items 0 st t = t.
Proof.
  revert st. induction t as [|x t IH]; intro st; [reflexivity|].
  intro H. simpl in H. apply orb_false_iff in H as [Hx Ht].
  cbn [Md.replace_items].
  change (Md.starts_with (Md.lit "- ") (x :: t))
    with ((45 =? x)%N && Md.starts_with [32%N] t).
  rewrite Hx, andb_false_r. now rewrite IH.
Qed.

Lemma bold_plain (t : Md.text) : Md.has Md.star t = false -> Md.bold t = t.
Proof.
  intro H. unfold Md.bold. rewrite <- (app_nil_r t) at 1.
  change (Md.lit "**") with (Md.star :: [Md.star]).
  rewrite (replace_delimited_plain _ _ _ _ _ H). cbn [Md.replace_delimited].
  apply app_nil_r.
Qed.

Lemma italics_plain (t : Md.text) :
  Md.has Md.star t = false -> Md.italics t = t.
Proof.
  intro H. unfold Md.italics. rewrite <- (app_nil_r t) at 1.
  change (Md.lit "*") with (Md.star :: []).
  rewrite (replace_delimited_plain _ _ _ _ _ H). cbn [Md.replace_delimited].
  apply app_nil_r.
Qed.

(** X14: a text without asterisk, hyphen and newline is returned as it is
    by both versions of [parseMarkdown]; in particular HTML markup in an
    answer is not escaped. *)
Theorem parseMarkdown_plain (t : Md.text) :
  Md.has Md.star t = false -> Md.has 45%N t = false ->
  Md.has Md.newline t = false ->
  Md.parseMarkdown t = t /\ Md.parseMarkdown_legacy t = t.
Proof.
  intros Hs Hh Hn.
  assert (Hl : Md.parseMarkdown_legacy t = t).
  { unfold Md.parseMarkdown_legacy, Md.list_items.
    now rewrite bold_plain, italics_plain, replace_items_no_hyphen. }
  split; [|exact Hl].
  change (Md.parseMarkdown t) with (Md.line_breaks (Md.parseMarkdown_legacy t)).
  rewrite Hl. now apply line_breaks_plain.
Qed.

Lemma parseMarkdown_plain_witness :
  Md.has Md.star (Md.lit "<script>alert(1)</script>") = false
  /\ Md.has 45%N (Md.lit "<script>alert(1)</script>") = false
  /\ Md.has Md.newline (Md.lit "<script>alert(1)</script>") = false
  /\ Md.parseMarkdown (Md.lit "<script>alert(1)</script>")
     = Md.lit "<script>alert(1)</script>".
Proof.
  split; [reflexivity|]. split; [reflexivity|]. split; [reflexivity|].
  exact (proj1 (parseMarkdown_plain (Md.lit "<script>alert(1)</script>")
                  eq_refl eq_refl eq_refl)).
Defined.

Lemma bold_single_stars (p x q : Md.text) :
  Md.has Md.star p = false -> Md.has Md.star x = false ->
  Md.has Md.star q = false ->
  Md.bold (p ++ Md.lit "*" ++ x ++ Md.lit "*" ++ q)
  = p ++ Md.lit "*" ++ x ++ Md.lit "*" ++ q.
Proof.
  intros Hp Hx Hq. unfold Md.bold.
  change (Md.lit "**") with (Md.star :: [Md.star]).
  change (Md.lit "*") with [Md.star].
  rewrite (replace_delimited_plain _ _ _ _ _ Hp). f_equal.
  assert (Hlast : Md.replace_delimited (Md.star :: [Md.star])
                    (Md.lit "<strong>") (Md.lit "</strong>") 0
                    ([Md.star] ++ q)
                  = [Md.star] ++ q).
  { simpl app. cbn [Md.replace_delimited].
    assert (Hno : Md.starts_with [Md.star; Md.star] (Md.star :: q) = false).
    { destruct q as [|y q]; [reflexivity|].
      simpl in Hq. apply orb_false_iff in Hq as [Hy _].
      simpl. now rewrite Hy. }
    rewrite Hno. f_equal.
    rewrite <- (app_nil_r q) at 1.
    rewrite (replace_delimited_plain _ _ _ _ _ Hq).
    cbn [Md.replace_delimited]. apply app_nil_r. }
  destruct x as [|a x].
  - rewrite app_nil_l.
    change ([Md.star] ++ [Md.star] ++ q) with (Md.star :: ([Md.star] ++ q)).
    cbn [Md.replace_delimited].
    change (Md.star :: ([Md.star] ++ q)) with ([Md.star; Md.star] ++ q).
    rewrite starts_with_prefix, skipn_prefix, (close_none _ _ Hq).
    rewrite Hlast. reflexivity.
  - change ([Md.star] ++ (a :: x) ++ [Md.star] ++ q)
      with (Md.star :: ((a :: x) ++ [Md.star] ++ q)).
    cbn [Md.replace_delimited].
    assert (Hno : Md.starts_with [Md.star; Md.star]
                    (Md.star :: (a :: x) ++ [Md.star] ++ q) = false).
    { simpl in Hx. apply orb_false_iff in Hx as [Ha _].
      simpl. now rewrite Ha. }
    rewrite Hno.
    rewrite (replace_delimited_plain _ _ _ _ _ Hx), Hlast. reflexivity.
Qed.

Lemma tags_plain :
  Md.has Md.star (Md.lit "<strong>") = false
  /\ Md.has Md.star (Md.lit "</strong>") = false
  /\ Md.one_line (Md.lit "<strong>") = true
  /\ Md.one_line (Md.lit "</strong>") = true
  /\ Md.one_line (Md.lit "<em>") = true
  /\ Md.one_line (Md.lit "</em>") = true
  /\ Md.one_line Md.li_open = true
  /\ Md.one_line (Md.lit "</li>") = true.
Proof. repeat split; reflexivity. Qed.

(** X15: in a single line without other asterisks, [**x**] becomes
    [<strong>x</strong>] and [*x*] becomes [<em>x</em>], and the text before
    and after is left as it is (the line not being a list item). *)
Theorem parseMarkdown_emphasis (p x q : Md.text) :
  Md.has Md.star (p ++ x ++ q) = false ->
  Md.one_line (p ++ x ++ q) = true ->
  Md.starts_with (Md.lit "- ") p = false ->
  Md.parseMarkdown (p ++ Md.lit "**" ++ x ++ Md.lit "**" ++ q)
  = p ++ Md.lit "<strong>" ++ x ++ Md.lit "</strong>" ++ q
  /\ Md.parseMarkdown (p ++ Md.lit "*" ++ x ++ Md.lit "*" ++ q)
     = p ++ Md.lit "<em>" ++ x ++ Md.lit "</em>" ++ q.
Proof.
  intros Hs Hl Hitem.
  rewrite !has_app in Hs. apply orb_false_iff in Hs as [Hp Hs].
  apply orb_false_iff in Hs as [Hx Hq].
  rewrite !one_line_app in Hl. apply andb_true_iff in Hl as [Hlp Hl].
  apply andb_true_iff in Hl as [Hlx Hlq].
  assert (Hrest : forall o c,
             Md.one_line o = true -> Md.one_line c = true ->
             Md.starts_with [32%N] (o ++ x ++ c ++ q) = false ->
             Md.starts_with (Md.lit "- ") (o ++ x ++ c ++ q) = false ->
             Md.line_breaks (Md.list_items (p ++ o ++ x ++ c ++ q))
             = p ++ o ++ x ++ c ++ q).
  { intros o c Ho Hc Hsp Hit.
    assert (Hone : Md.one_line (p ++ o ++ x ++ c ++ q) = true).
    { rewrite !one_line_app, Hlp, Ho, Hlx, Hc, Hlq. reflexivity. }
    rewrite list_items_plain.
    - apply line_breaks_plain, one_line_no_newline, Hone.
    - exact Hone.
    - apply starts_with_item_prefix; [exact Hitem|exact Hit|].
      intros _ _. exact Hsp. }
  unfold Md.parseMarkdown. split.
  - unfold Md.bold. change (Md.lit "**") with (Md.star :: [Md.star]).
    rewrite (replace_delimited_span _ _ _ _ _ _ Hp Hx Hq Hlx).
    rewrite italics_plain.
    + apply Hrest; reflexivity.
    + rewrite !has_app, Hp, Hx, Hq. reflexivity.
  - rewrite (bold_single_stars _ _ _ Hp Hx Hq).
    unfold Md.italics. change (Md.lit "*") with (Md.star :: []).
    rewrite (replace_delimited_span _ _ _ _ _ _ Hp Hx Hq Hlx).
    apply Hrest; reflexivity.
Qed.

Lemma parseMarkdown_emphasis_witness :
  Md.has Md.star (Md.lit "Revenue is " ++ Md.lit "up" ++ Md.lit " 5%")
  = false
  /\ Md.one_line (Md.lit "Revenue is " ++ Md.lit "up" ++ Md.lit " 5%") = true
  /\ Md.starts_with (Md.lit "- ") (Md.lit "Revenue is ") = false
  /\ Md.parseMarkdown (Md.lit "Revenue is **up** 5%")
     = Md.lit "Revenue is <strong>up</strong> 5%"
  /\ Md.parseMarkdown (Md.lit "Revenue is *up* 5%")
     = Md.lit "Revenue is <em>up</em> 5%".
Proof.
  split; [reflexivity|]. split; [reflexivity|]. split; [reflexivity|].
  exact (parseMarkdown_emphasis (Md.lit "Revenue is ") (Md.lit "up")
           (Md.lit " 5%") eq_refl eq_refl eq_refl).
Defined.

(** X16: a line made of a hyphen, a space and a text without asterisk
    becomes one list item holding that text. *)
Theorem parseMarkdown_item (x : Md.text) :
  Md.has Md.star x = false -> Md.one_line x = true ->
  Md.parseMarkdown (Md.lit "- " ++ x) = Md.li_open ++ x ++ Md.lit "</li>".
Proof.
  intros Hs Hl. unfold Md.parseMarkdown.
  assert (Hplain : Md.has Md.star (Md.lit "- " ++ x) = false)
    by (now rewrite has_app, Hs).
  rewrite bold_plain, italics_plain by exact Hplain.
  unfold Md.list_items.
  change (Md.lit "- " ++ x) with (45%N :: 32%N :: x).
  cbn [Md.replace_items andb].
  change (Md.starts_with (Md.lit "- ") (45%N :: 32%N :: x)) with true.
  cbn [skipn]. rewrite (line_one_line _ Hl). cbv zeta.
  change (1 + List.length x)%nat with (S (List.length x)). cbv iota.
  rewrite replace_items_skip, app_nil_r.
  rewrite line_breaks_plain.
  - unfold Md.li_open. now rewrite <- !app_assoc.
  - apply one_line_no_newline.
    change (Md.one_line (Md.li_open ++ x ++ Md.lit "</li>") = true).
    now rewrite !one_line_app, Hl.
Qed.

Lemma parseMarkdown_item_witness :
  Md.has Md.star (Md.lit "Airbnb brings most revenue") = false
  /\ Md.one_line (Md.lit "Airbnb brings most revenue") = true
  /\ Md.parseMarkdown (Md.lit "- Airbnb brings most revenue")
     = Md.li_open ++ Md.lit "Airbnb brings most revenue</li>".
Proof.
  split; [reflexivity|]. split; [reflexivity|].
  exact (parseMarkdown_item (Md.lit "Airbnb brings most revenue")
           eq_refl eq_refl).
Defined.

(** *** Lines are rendered one by one *)

Lemma starts_with_break (d a b : Md.text) :
  Md.has Md.newline d = false ->
  Md.starts_with d (a ++ Md.newline :: b) = Md.starts_with d a.
Proof.
  revert a. induction d as [|x d IH]; intros a Hd; [reflexivity|].
  simpl in Hd. apply orb_false_iff in Hd as [Hx Hd].
  destruct a as [|y a]; simpl.
  - rewrite N.eqb_sym in Hx. now rewrite Hx.
  - now rewrite IH.
Qed.

Lemma starts_with_length (d l : Md.text) :
  Md.starts_with d l = true -> (List.length d <= List.length l)%nat.
Proof.
  revert l. induction d as [|x d IH]; intro l; simpl; [lia|].
  destruct l as [|y l]; [discriminate|].
  intro H. apply andb_true_iff in H as [_ H]. apply IH in H. simpl. lia.
Qed.

Lemma skipn_app_short {A : Type} (n : nat) (a b : list A) :
  (n <= List.length a)%nat -> skipn n (a ++ b) = skipn n a ++ b.
Proof.
  revert a. induction n as [|n IH]; intros a H; [reflexivity|].
  destruct a as [|x a]; simpl in *; [lia|]. apply IH. lia.
Qed.

Lemma close_break (d u b : Md.text) :
  d <> [] -> Md.has Md.newline d = false ->
  Md.close d (u ++ Md.newline :: b)
  = match Md.close d u with
    | Some (content, rest) => Some (content, rest ++ Md.newline :: b)
    | None => None
    end.
Proof.
  intros Hne Hd. induction u as [|x u IH].
  - rewrite !close_eq. simpl app.
    rewrite <- (app_nil_l (Md.newline :: b)), starts_with_break by exact Hd.
    destruct d as [|y d]; [contradiction|]. reflexivity.
  - rewrite (close_eq d ((x :: u) ++ Md.newline :: b)), (close_eq d (x :: u)).
    rewrite starts_with_break by exact Hd.
    destruct (Md.starts_with d (x :: u)) eqn:E.
    + rewrite skipn_app_short by (now apply starts_with_length).
      reflexivity.
    + change ((x :: u) ++ Md.newline :: b) with (x :: (u ++ Md.newline :: b)).
      cbv iota. destruct (Md.line_terminator x); [reflexivity|].
      rewrite IH. now destruct (Md.close d u) as [[content rest]|].
Qed.

Lemma replace_delimited_break (d o c a b : Md.text) (k : nat) :
  d <> [] -> Md.has Md.newline d = false ->
  (k <= List.length a)%nat ->
  Md.replace_delimited d o c k (a ++ Md.newline :: b)
  = Md.replace_delimited d o c k a
    ++ Md.newline :: Md.replace_delimited d o c 0 b.
Proof.
  intros Hne Hd. revert k. induction a as [|x a IH]; intros k Hk.
  - simpl in Hk. assert (k = 0)%nat by lia. subst k.
    rewrite app_nil_l. cbn [Md.replace_delimited app].
    rewrite <- (app_nil_l (Md.newline :: b)), starts_with_break by exact Hd.
    destruct d as [|y d]; [contradiction|]. reflexivity.
  - change ((x :: a) ++ Md.newline :: b) with (x :: (a ++ Md.newline :: b)).
    destruct k as [|k]; cbn [Md.replace_delimited].
    + change (x :: (a ++ Md.newline :: b))
        with ((x :: a) ++ Md.newline :: b).
      rewrite starts_with_break by exact Hd.
      destruct (Md.starts_with d (x :: a)) eqn:E.
      * rewrite skipn_app_short by (now apply starts_with_length).
        rewrite close_break by assumption.
        destruct (Md.close d (skipn (List.length d) (x :: a)))
          as [[content rest]|] eqn:Ec.
        -- rewrite IH.
           ++ now rewrite <- !app_assoc.
           ++ apply close_split in Ec as [Hsplit _].
              apply starts_with_split in E. rewrite Hsplit in E.
              apply (f_equal (@List.length N)) in E.
              rewrite !length_app in E. simpl in E. lia.
        -- rewrite IH by lia. reflexivity.
      * rewrite IH by lia. reflexivity.
    + simpl in Hk. apply IH. lia.
Qed.

Lemma line_break (u b : Md.text) :
  Md.line (u ++ Md.newline :: b) = Md.line u.
Proof.
  induction u as [|x u IH]; [reflexivity|]. simpl.
  destruct (Md.line_terminator x); [reflexivity|]. now rewrite IH.
Qed.

Lemma line_length (u : Md.text) :
  (List.length (Md.line u) <= List.length u)%nat.
Proof.
  induction u as [|x u IH]; simpl; [lia|].
  destruct (Md.line_terminator x); simpl; lia.
Qed.

Lemma replace_items_break (a b : Md.text) (k : nat) (st : bool) :
  (k <= List.length a)%nat ->
  Md.replace_items k st (a ++ Md.newline :: b)
  = Md.replace_items k st a ++ Md.newline :: Md.replace_items 0 true b.
Proof.
  revert k st. induction a as [|x a IH]; intros k st Hk.
  - simpl in Hk. assert (k = 0)%nat by lia. subst k.
    rewrite app_nil_l. cbn [Md.replace_items app].
    change (Md.starts_with (Md.lit "- ") (Md.newline :: b)) with false.
    rewrite andb_false_r. reflexivity.
  - change ((x :: a) ++ Md.newline :: b) with (x :: (a ++ Md.newline :: b)).
    destruct k as [|k]; cbn [Md.replace_items].
    + change (x :: (a ++ Md.newline :: b))
        with ((x :: a) ++ Md.newline :: b).
      rewrite starts_with_break by reflexivity.
      destruct (st && Md.starts_with (Md.lit "- ") (x :: a)) eqn:E.
      * apply andb_true_iff in E as [_ E].
        pose proof (starts_with_length _ _ E) as Hlen.
        rewrite skipn_app_short by exact Hlen.
        rewrite line_break. cbv zeta.
        rewrite IH.
        -- now rewrite <- !app_assoc.
        -- pose proof (line_length (skipn 2 (x :: a))) as Hline.
           destruct a as [|y a]; [simpl in Hlen; lia|].
           simpl in Hline |- *. lia.
      * rewrite IH by lia. reflexivity.
    + simpl in Hk. apply IH. lia.
Qed.

Lemma line_breaks_break (a b : Md.text) :
  Md.line_breaks (a ++ Md.newline :: b)
  = Md.line_breaks a ++ Md.lit "<br />" ++ Md.line_breaks b.
Proof.
  unfold Md.line_breaks. rewrite flat_map_app. reflexivity.
Qed.

Lemma line_breaks_no_newline (t : Md.text) :
  Md.has Md.newline (Md.line_breaks t) = false.
Proof.
  induction t as [|x t IH]; [reflexivity|].
  unfold Md.line_breaks in *. simpl. rewrite has_app, IH, orb_false_r.
  destruct (N.eqb_spec x Md.newline) as [->|Hx]; [reflexivity|].
  simpl. rewrite orb_false_r. apply N.eqb_neq. congruence.
Qed.

(** X17: lines are rendered independently of each other: the rendering of
    two texts joined by a newline is the rendering of the first, a
    [<br />], and the rendering of the second (the older version keeps the
    newline instead); and the output never contains a newline. *)
Theorem parseMarkdown_lines (a b : Md.text) :
  Md.parseMarkdown (a ++ Md.newline :: b)
  = Md.parseMarkdown a ++ Md.lit "<br />" ++ Md.parseMarkdown b
  /\ Md.parseMarkdown_legacy (a ++ Md.newline :: b)
     = Md.parseMarkdown_legacy a
       ++ Md.newline :: Md.parseMarkdown_legacy b
  /\ Md.has Md.newline (Md.parseMarkdown a) = false.
Proof.
  assert (Hl : Md.parseMarkdown_legacy (a ++ Md.newline :: b)
               = Md.parseMarkdown_legacy a
                 ++ Md.newline :: Md.parseMarkdown_legacy b).
  { unfold Md.parseMarkdown_legacy, Md.list_items, Md.italics, Md.bold.
    rewrite replace_delimited_break by (try discriminate; reflexivity || lia).
    rewrite replace_delimited_break by (try discriminate; reflexivity || lia).
    rewrite replace_items_break by lia. reflexivity. }
  split; [|split; [exact Hl|apply line_breaks_no_newline]].
  change (Md.parseMarkdown (a ++ Md.newline :: b))
    with (Md.line_breaks (Md.parseMarkdown_legacy (a ++ Md.newline :: b))).
  rewrite Hl. apply line_breaks_break.
Qed.

(** ** The earlier version of the dashboard *)

Lemma add_NaN_l (x : JS.number) : JS.add JS.NaN x = JS.NaN.
Proof. reflexivity. Qed.

Lemma add_NaN_r (x : JS.number) : JS.add x JS.NaN = JS.NaN.
Proof. now destruct x. Qed.

Lemma sum_stays_NaN {A : Type} (f : A -> JS.number) (l : list A) :
  fold_left (fun acc b => JS.add acc (f b)) l JS.NaN = JS.NaN.
Proof. induction l as [|x l IH]; [reflexivity|]. exact IH. Qed.

Lemma sum_becomes_NaN {A : Type} (f : A -> JS.number) (l : list A) (b : A)
  (acc : JS.number) :
  In b l -> f b = JS.NaN ->
  fold_left (fun acc b => JS.add acc (f b)) l acc = JS.NaN.
Proof.
  intros Hin Hb. revert acc. induction l as [|x l IH]; intro acc.
  - contradiction.
  - destruct Hin as [->|Hin]; simpl.
    + rewrite Hb, add_NaN_r. apply sum_stays_NaN.
    + now apply IH.
Qed.

Lemma legacy_nights_step (acc : JS.number) (b : Booking) :
  (n <- nights b ;; JS.Ok (JS.add acc n))
  = JS.Ok (JS.add acc
             match JS.sub (JS.getTime (departure b)) (JS.getTime (arrival b))
             with
             | JS.NaN => JS.NaN
             | JS.Fin a => JS.Fin (a / inject_Z (1000 * 3600 * 24))
             end).
Proof. unfold nights. now rewrite div_by_msPerDay. Qed.

Lemma legacy_totalNights_sum (bookings : list Booking) :
  Legacy.totalNights bookings
  = JS.Ok (fold_left
             (fun acc b =>
                JS.add acc
                  match JS.sub (JS.getTime (departure b))
                          (JS.getTime (arrival b)) with
                  | JS.NaN => JS.NaN
                  | JS.Fin a => JS.Fin (a / inject_Z (1000 * 3600 * 24))
                  end)
             (confirmedBookings bookings) zero).
Proof.
  unfold Legacy.totalNights. generalize zero.
  induction (confirmedBookings bookings) as [|b l IH]; intro acc;
    [reflexivity|].
  cbn [JS.reduce fold_left]. rewrite legacy_nights_step. apply IH.
Qed.

Lemma confirmed_count_positive (bookings : list Booking) (b : Booking) :
  In b (confirmedBookings bookings) -> (0 < totalBookings bookings)%nat.
Proof.
  unfold totalBookings.
  destruct (confirmedBookings bookings); [contradiction|simpl; lia].
Qed.

(** X18: the earlier version has no guard on the amount: as soon as one
    confirmed booking has no amount, its total revenue and its average
    booking value are NaN, while the current version still computes a
    number. *)
Theorem legacy_missing_amount (tz : Z -> Z) (bookings : list Booking)
  (b : Booking) :
  In b (confirmedBookings bookings) -> total_amount b = None ->
  (exists d, Legacy.processedData tz bookings = JS.Ok d
             /\ LegacyData.totalRevenue d = JS.NaN
             /\ LegacyData.avgBookingValue d = JS.NaN)
  /\ exists q, totalRevenue bookings = JS.Fin q.
Proof.
  intros Hin Hb. split; [|eexists; apply totalRevenue_value].
  assert (Hrev : Legacy.totalRevenue bookings = JS.NaN).
  { unfold Legacy.totalRevenue. apply sum_becomes_NaN with b; [exact Hin|].
    unfold Legacy.amount. now rewrite Hb. }
  unfold Legacy.processedData. rewrite Hrev, legacy_totalNights_sum.
  cbn [JS.bind]. unfold avgBookingValue. rewrite of_nat_positive.
  apply confirmed_count_positive in Hin as Hpos.
  apply Nat.ltb_lt in Hpos. rewrite Hpos.
  assert (Hdiv : JS.div JS.NaN (JS.of_nat (totalBookings bookings))
                 = JS.Ok JS.NaN).
  { unfold JS.div, JS.of_nat, JS.of_Z.
    destruct (Qeq_bool _ 0) eqn:E; [|reflexivity].
    apply Qeq_bool_iff in E. unfold Qeq in E; simpl in E.
    apply Nat.ltb_lt in Hpos. lia. }
  rewrite Hdiv. cbn [JS.bind].
  set (n := fold_left _ _ _).
  assert (Hrate : avgNightlyRate JS.NaN n
                  = JS.Ok (if JS.gt n zero then JS.NaN else zero)).
  { unfold avgNightlyRate. destruct (JS.gt n zero) eqn:E; [|reflexivity].
    destruct n as [|q]; [discriminate|].
    apply gt_zero_iff in E. unfold JS.div.
    destruct (Qeq_bool q 0) eqn:E0; [|reflexivity].
    apply Qeq_bool_iff in E0. rewrite E0 in E. now apply Qlt_irrefl in E. }
  rewrite Hrate. cbn [JS.bind].
  eexists. split; [reflexivity|]. split; reflexivity.
Qed.

Lemma legacy_missing_amount_witness :
  In Sample.unpriced (confirmedBookings [Sample.booking1; Sample.unpriced])
  /\ total_amount Sample.unpriced = None
  /\ (exists d,
         Legacy.processedData Sample.utc [Sample.booking1; Sample.unpriced]
         = JS.Ok d
         /\ LegacyData.totalRevenue d = JS.NaN
         /\ LegacyData.avgBookingValue d = JS.NaN)
  /\ exists q, totalRevenue [Sample.booking1; Sample.unpriced] = JS.Fin q.
Proof.
  assert (Hin : In Sample.unpriced
                  (confirmedBookings [Sample.booking1; Sample.unpriced]))
    by (right; left; reflexivity).
  split; [exact Hin|]. split; [reflexivity|].
  exact (legacy_missing_amount Sample.utc
           [Sample.booking1; Sample.unpriced] Sample.unpriced Hin eq_refl).
Defined.

Lemma sub_unparseable (b : Booking) :
  arrival b = None \/ departure b = None ->
  JS.sub (JS.getTime (departure b)) (JS.getTime (arrival b)) = JS.NaN.
Proof.
  intros [H|H]; rewrite H; [|reflexivity].
  now destruct (departure b).
Qed.

(** X19: the earlier version has no guard on the dates either: one
    confirmed booking with an unparseable arrival or departure makes its
    total of nights NaN, and its average nightly rate is then 0 whatever the
    revenue; the current version counts that booking for zero nights and
    keeps a number. *)
Theorem legacy_unparseable_date (tz : Z -> Z) (bookings : list Booking)
  (b : Booking) :
  In b (confirmedBookings bookings) ->
  arrival b = None \/ departure b = None ->
  Legacy.totalNights bookings = JS.Ok JS.NaN
  /\ (exists d, Legacy.processedData tz bookings = JS.Ok d
                /\ LegacyData.avgNightlyRate d = zero)
  /\ exists q, totalNights bookings = JS.Ok (JS.Fin q).
Proof.
  intros Hin Hb.
  assert (Hnights : Legacy.totalNights bookings = JS.Ok JS.NaN).
  { rewrite legacy_totalNights_sum. f_equal.
    apply sum_becomes_NaN with b; [exact Hin|].
    now rewrite sub_unparseable. }
  split; [exact Hnights|].
  split; [|eexists; apply totalNights_value].
  unfold Legacy.processedData. rewrite Hnights. cbn [JS.bind].
  assert (Hvalue : exists v,
             avgBookingValue (Legacy.totalRevenue bookings)
               (totalBookings bookings) = JS.Ok v).
  { unfold avgBookingValue. rewrite of_nat_positive.
    apply confirmed_count_positive in Hin as Hpos.
    pose proof Hpos as Hlt. apply Nat.ltb_lt in Hlt. rewrite Hlt.
    destruct (Legacy.totalRevenue bookings) as [|q].
    - unfold JS.div, JS.of_nat, JS.of_Z.
      destruct (Qeq_bool _ 0) eqn:E; [|now eexists].
      apply Qeq_bool_iff in E. unfold Qeq in E; simpl in E. lia.
    - rewrite div_by_count by exact Hpos. now eexists. }
  destruct Hvalue as [v ->]. cbn [JS.bind].
  unfold avgNightlyRate.
  replace (JS.gt JS.NaN zero) with false
    by (now destruct (Legacy.totalRevenue bookings)).
  cbn [JS.bind]. eexists. split; reflexivity.
Qed.

Lemma legacy_unparseable_date_witness :
  In Sample.undated (confirmedBookings [Sample.booking1; Sample.undated])
  /\ (arrival Sample.undated = None \/ departure Sample.undated = None)
  /\ Legacy.totalNights [Sample.booking1; Sample.undated] = JS.Ok JS.NaN
  /\ (exists d,
         Legacy.processedData Sample.utc [Sample.booking1; Sample.undated]
         = JS.Ok d
         /\ LegacyData.avgNightlyRate d = zero)
  /\ exists q,
       totalNights [Sample.booking1; Sample.undated] = JS.Ok (JS.Fin q).
Proof.
  assert (Hin : In Sample.undated
                  (confirmedBookings [Sample.booking1; Sample.undated]))
    by (right; left; reflexivity).
  split; [exact Hin|]. split; [left; reflexivity|].
  exact (legacy_unparseable_date Sample.utc
           [Sample.booking1; Sample.undated] Sample.undated Hin
           (or_introl eq_refl)).
Defined.

(** *** Agreement of the two versions on complete records *)









Section ValuesOfKeys.

Context {V : Type}.
Variable F : string -> V.





End ValuesOfKeys.







